(** * labelmaker/ml: AdaBoost.MH over decision stumps

    A shallow embedding of [src/labelmaker/src/ml/ml.go] and the
    verification of its specification.

    Conventions of the embedding.
    - [float64] is the kernel's binary64 type [float]; [math.Sqrt] is the
      IEEE square root [PrimFloat.sqrt].  [math.Log] and [math.Exp] are
      library functions outside the repository: they are the two fields of
      the class [GoMath].
    - [int] is [Z] with the 64-bit wrap-around written out ([wrap64]).
    - A Go call either returns, panics, or never returns; [outcome] records
      the three, the last one as exhausted fuel.
    - [map[Label]bool] used as a set is a [gset Label]; Go leaves the
      iteration order of a map unspecified, so [range] over it goes through
      the class [GoMapOrder], which only promises a duplicate-free
      enumeration of the keys.  One enumeration serves all the loops of a
      run; the order only shows in the rounding of the sum of a score, and
      every theorem holds for every enumeration.
    - Interface values of [Example] and [Feature] held in slices are not
      nil; the feature of a stump can be (it starts as [nil] in
      [NewStump]).
    - [*Distribution] is a location in a [store]; the orchestrator's map
      [D] holds locations, so that the in-place update of [Round] and the
      sharing it relies on are explicit. *)

From Stdlib Require Import ZArith Lia.
From Stdlib Require Import Floats.
From stdpp Require Import base option list gmap sets strings.

#[local] Set Warnings "-clear-no-such-hyp,-inexact-float".

Local Open Scope Z_scope.

(** ** Outcomes of a Go call *)

Inductive failure : Type :=
| InvariantViolation   (* panic("Search did not find a valid index. ...") *)
| IndexOutOfRange      (* runtime error: index out of range *)
| NilDereference       (* runtime error: invalid memory address or nil pointer dereference *)
| NegativeLength.      (* runtime error: makeslice: len out of range *)

Inductive outcome (A : Type) : Type :=
| Done (a : A)
| Fail (e : failure)
| OutOfFuel.
Arguments Done {A} a.
Arguments Fail {A} e.
Arguments OutOfFuel {A}.

#[global] Instance outcome_ret : MRet outcome := fun A a => Done a.
#[global] Instance outcome_bind : MBind outcome := fun A B k m =>
  match m with
  | Done a => k a
  | Fail e => Fail e
  | OutOfFuel => OutOfFuel
  end.

(** Monadic left fold: the body of a [for ... range] loop that may panic. *)
Fixpoint foldM {A B : Type} (body : B -> A -> outcome B) (acc : B) (l : list A)
  : outcome B :=
  match l with
  | [] => Done acc
  | x :: l => acc' ← body acc x; foldM body acc' l
  end.

(** The same with the index that [range] hands to the body. *)
Fixpoint foldMi {A B : Type} (body : B -> nat -> A -> outcome B) (i : nat)
  (acc : B) (l : list A) : outcome B :=
  match l with
  | [] => Done acc
  | x :: l => acc' ← body acc i x; foldMi body (S i) acc' l
  end.

(** ** Machine integers *)

Definition wrap64 (z : Z) : Z := (z + 2 ^ 63) mod 2 ^ 64 - 2 ^ 63.
Definition int_add (a b : Z) : Z := wrap64 (a + b).
Definition int_sub (a b : Z) : Z := wrap64 (a - b).
Definition int_quot (a b : Z) : Z := wrap64 (Z.quot a b).
Definition len {A : Type} (l : list A) : Z := Z.of_nat (length l).

(** [l[i]] for a slice [l] and an [int] index [i]. *)
Definition index {A : Type} (l : list A) (i : Z) : outcome A :=
  if i <? 0 then Fail IndexOutOfRange
  else match l !! Z.to_nat i with
       | Some x => Done x
       | None => Fail IndexOutOfRange
       end.

(** ** Floating point *)

Abbreviation float64 := PrimFloat.float.
Definition MaxFloat64 : float64 := 0x1.fffffffffffffp+1023%float.

Class GoMath : Type := {
  Log : float64 -> float64;
  Exp : float64 -> float64
}.

Definition Label : Type := string.

Class GoMapOrder : Type := {
  range_keys : gset Label -> list Label;
  range_keys_perm : forall X : gset Label, range_keys X ≡ₚ elements X
}.

(** ** The interfaces [Example] and [Feature]

    An implementation of a Go interface is an instance of the class; the
    methods are assumed to be pure.  [Labels] and [HasLabel] are independent
    methods, as in the source: nothing relates them. *)

Class Example (E : Type) : Type := {
  Labels : E -> list Label;
  HasLabel : E -> Label -> bool
}.

Class Feature (F E : Type) : Type := {
  String_ : F -> string;
  Test : F -> E -> bool
}.

(** ** Distribution *)

(** [search] (ml.go:36-48): one unit of fuel per call frame. *)
Fixpoint search (fuel : nat) (s : float64) (cumulative : list float64)
  (startInclusive endExclusive : Z) : outcome Z :=
  match fuel with
  | O => OutOfFuel
  | S fuel =>
    if startInclusive =? endExclusive then
      c0 ← index cumulative 0;
      ok ← (if (s <=? c0)%float then
              if startInclusive =? 0 then Done true
              else cp ← index cumulative (int_sub startInclusive 1);
                   Done (cp <? s)%float
            else Done false);
      if negb ok then Fail InvariantViolation else Done startInclusive
    else
      let mid := int_add startInclusive
                   (int_quot (int_sub endExclusive startInclusive) 2) in
      cm ← index cumulative mid;
      if (s <? cm)%float then search fuel s cumulative startInclusive mid
      else search fuel s cumulative mid endExclusive
  end.

Module Distribution.

Record t : Type := { P : list float64 }.

(** The loop of [Sample]: [sum += p; cumulative[i] = sum]. *)
Fixpoint running (sum : float64) (ps : list float64) : list float64 :=
  match ps with
  | [] => []
  | p :: ps => let sum' := (sum + p)%float in sum' :: running sum' ps
  end.

Definition cumulative_of (dist : t) : list float64 := running 0%float (P dist).

(** [Sample] (ml.go:24-32); [draw] is the value of [r.Float64()]. *)
Definition Sample (fuel : nat) (dist : t) (draw : float64) : outcome Z :=
  let cumulative := cumulative_of dist in
  search fuel draw cumulative 0 (len cumulative).

End Distribution.

(** [UniformDistribution] (ml.go:14-20). *)
Definition UniformDistribution (nitems : Z) : outcome Distribution.t :=
  if nitems <? 0 then Fail NegativeLength
  else Done {| Distribution.P :=
                 replicate (Z.to_nat nitems)
                   (1 / PrimFloat.of_uint63 (Uint63.of_Z nitems))%float |}.

(** The bucket condition in the comment above [search]:
    [C_(i-1) < sample <= C_i], with [C_(-1) = 0]. *)
Definition bucket (s : float64) (cumulative : list float64) (i : nat) : bool :=
  match cumulative !! i with
  | None => false
  | Some ci =>
    (match i with
     | O => (0 <? s)%float
     | S j => match cumulative !! j with
              | Some cj => (cj <? s)%float
              | None => false
              end
     end) && (s <=? ci)%float
  end.

(** ** The store of distributions *)

Definition loc : Type := positive.
Abbreviation store := (gmap loc Distribution.t).

(** [ds[label]] followed by the dereference in [ds[label].P]. *)
Definition dist_of (σ : store) (ds : gmap Label loc) (label : Label)
  : option Distribution.t :=
  p ← ds !! label; σ !! p.

Definition load (σ : store) (ds : gmap Label loc) (label : Label)
  : outcome Distribution.t :=
  match dist_of σ ds label with
  | Some d => Done d
  | None => Fail NilDereference
  end.

Definition alloc (σ : store) (d : Distribution.t) : loc * store :=
  let p := fresh (dom σ) in (p, <[p := d]> σ).

(** ** DecisionStump *)

Module DecisionStump.
Section defs.
Context {E F : Type} {IE : Example E} {IF : Feature F E}.

Record t : Type := {
  Feature : option F;
  c : gmap Label float64;
  zt : float64
}.

(** [Predict] (ml.go:69-75); calling [Test] on the nil feature panics. *)
Definition Predict (d : t) (e : E) (l : Label) : outcome float64 :=
  match Feature d with
  | None => Fail NilDereference
  | Some f =>
    if negb (Test f e) then Done (-1)%float
    else Done (default 0%float (c d !! l))
  end.

End defs.
Arguments t F : clear implicits.
End DecisionStump.

(** ** DecisionStumper *)

Module DecisionStumper.
Section defs.
Context {E F : Type} {IE : Example E} {IF : Feature F E}.
Context {EqF : EqDecision F} {CntF : Countable F}.
Context {GM : GoMath} {GO : GoMapOrder}.

Record t : Type := {
  labels : gset Label;
  features : list F;
  examples : list E
}.

(** [key{b, f, l}]; the feature of a key can be the nil interface. *)
Definition key : Type := bool * option F * Label.

(** [w[k]] read: a missing key reads as zero. *)
Definition wget (w : gmap key float64) (k : key) : float64 :=
  default 0%float (w !! k).

Section NewStump.
Variable σ : store.
Variable stumper : t.
Variable ds : gmap Label loc.

(** ml.go:118-121: the two entries of a label are reset. *)
Definition clear (feature : F) (w : gmap key float64) (label : Label)
  : gmap key float64 :=
  <[(false, Some feature, label) := 0%float]>
    (<[(true, Some feature, label) := 0%float]> w).

(** ml.go:127-130: [w[key{b, feature, label}] += ds[label].P[i]]. *)
Definition accumulate (feature : F) (i : nat) (example : E)
  (w : gmap key float64) (label : Label) : outcome (gmap key float64) :=
  let b := HasLabel example label in
  d ← load σ ds label;
  p ← index (Distribution.P d) (Z.of_nat i);
  Done (<[(b, Some feature, label) :=
            (wget w (b, Some feature, label) + p)%float]> w).

(** ml.go:117-132: the body of the loop over the features. *)
Definition weigh (w : gmap key float64) (feature : F)
  : outcome (gmap key float64) :=
  let w := foldl (clear feature) w (range_keys (labels stumper)) in
  foldMi (fun w i example =>
            if negb (Test feature example) then Done w
            else foldM (accumulate feature i example) w
                   (range_keys (labels stumper)))
         0%nat w (examples stumper).

(** ml.go:144-147: [zFeature]. *)
Definition score (w : gmap key float64) (feature : F) : float64 :=
  foldl (fun zFeature label =>
           (zFeature + PrimFloat.sqrt (wget w (true, Some feature, label)
                                       * wget w (false, Some feature, label)))%float)
        0%float (range_keys (labels stumper)).

(** ml.go:143-156: one iteration of the selection loop on
    [(fMin, zMin, zt)]. *)
Definition select (w : gmap key float64)
  (acc : option F * float64 * float64) (feature : F)
  : option F * float64 * float64 :=
  let '(fMin, zMin, zt) := acc in
  let zFeature := score w feature in
  let '(fMin, zMin) :=
    if (zFeature <? zMin)%float then (Some feature, zFeature)
    else (fMin, zMin) in
  (fMin, zMin, (zt + zFeature)%float).

(** ml.go:163: [c[label]]. *)
Definition confidence (w : gmap key float64) (fMin : option F)
  (label : Label) : float64 :=
  (0.5 * Log ((1 + wget w (true, fMin, label))
              / (1 + wget w (false, fMin, label))))%float.

(** [NewStump] (ml.go:104-167). *)
Definition NewStump : outcome (DecisionStump.t F) :=
  w ← foldM weigh ∅ (features stumper);
  let '(fMin, _, zt) :=
    foldl (select w) (None, MaxFloat64, 0%float) (features stumper) in
  let zt := (zt * 2)%float in
  let c := foldl (fun c label => <[label := confidence w fMin label]> c)
             ∅ (range_keys (labels stumper)) in
  Done {| DecisionStump.Feature := fMin;
          DecisionStump.c := c;
          DecisionStump.zt := zt |}.
End NewStump.

End defs.
Arguments t E F : clear implicits.
End DecisionStumper.

Section constructors.
Context {E F : Type} {IE : Example E} {IF : Feature F E}.
Context {EqF : EqDecision F} {CntF : Countable F}.
Context {GM : GoMath} {GO : GoMapOrder}.

(** [NewDecisionStumper] (ml.go:83-92): no error result, no panic. *)
Definition NewDecisionStumper (fs : list F) (es : list E)
  : outcome (DecisionStumper.t E F) :=
  let labels :=
    foldl (fun labels e => foldl (fun labels l => {[l]} ∪ labels) labels (Labels e))
      (∅ : gset Label) es in
  Done {| DecisionStumper.labels := labels;
          DecisionStumper.features := fs;
          DecisionStumper.examples := es |}.

(** [hasLabel] (ml.go:190-196). *)
Definition hasLabel (e : E) (l : Label) : float64 :=
  if HasLabel e l then 1%float else (-1)%float.
End constructors.

(** ** AdaBoostMH *)

Module AdaBoostMH.
Section defs.
Context {E F : Type} {IE : Example E} {IF : Feature F E}.
Context {EqF : EqDecision F} {CntF : Countable F}.
Context {GM : GoMath} {GO : GoMapOrder}.

Record t : Type := {
  Examples : list E;
  Stumper : DecisionStumper.t E F;
  D : gmap Label loc;
  H : list (DecisionStump.t F)
}.

(** [a.D[label].P[i] *= math.Exp(...) / h.zt] *)
Definition update (a : t) (h : DecisionStump.t F) (label : Label)
  (σ : store) (i : nat) (example : E) : outcome store :=
  match D a !! label with
  | None => Fail NilDereference
  | Some p =>
    d ← load σ (D a) label;
    old ← index (Distribution.P d) (Z.of_nat i);
    y ← DecisionStump.Predict h example label;
    let new := (old * (Exp (hasLabel example label * y)
                       / DecisionStump.zt h))%float in
    Done (<[p := {| Distribution.P := <[i := new]> (Distribution.P d) |}]> σ)
  end.

(** [Round] (ml.go:198-206). *)
Definition Round (a : t) (σ : store) : outcome (t * store) :=
  h ← DecisionStumper.NewStump σ (Stumper a) (D a);
  σ ← foldM (fun σ label => foldMi (update a h label) 0%nat σ (Examples a))
        σ (range_keys (DecisionStumper.labels (Stumper a)));
  Done ({| Examples := Examples a; Stumper := Stumper a; D := D a;
           H := H a ++ [h] |}, σ).

(** [Predict] (ml.go:208-214). *)
Definition Predict (a : t) (e : E) (l : Label) : outcome float64 :=
  foldM (fun sum h => y ← DecisionStump.Predict h e l; Done (sum + y)%float)
    0%float (H a).

(** [Evaluate] (ml.go:217-229). *)
Definition Evaluate (a : t) (test : list E) : outcome Z :=
  foldM (fun dist example =>
           foldM (fun dist label =>
                    y ← Predict a example label;
                    if (0 <? y)%float && HasLabel example label then Done dist
                    else Done (int_add dist 1))
             dist (range_keys (DecisionStumper.labels (Stumper a))))
    0 test.

End defs.
Arguments t E F : clear implicits.
End AdaBoostMH.

Section NewAdaBoostMH.
Context {E F : Type} {IE : Example E} {IF : Feature F E}.
Context {EqF : EqDecision F} {CntF : Countable F}.
Context {GM : GoMath} {GO : GoMapOrder}.

(** [NewAdaBoostMH] (ml.go:177-188): one fresh distribution per label. *)
Definition NewAdaBoostMH (σ : store) (es : list E)
  (learner : DecisionStumper.t E F) : outcome (AdaBoostMH.t E F * store) :=
  '(dist, σ) ← foldM (fun '(dist, σ) label =>
                        d ← UniformDistribution (len es);
                        let '(p, σ) := alloc σ d in
                        Done (<[label := p]> dist, σ))
                 (∅, σ) (range_keys (DecisionStumper.labels learner));
  Done ({| AdaBoostMH.Examples := es;
           AdaBoostMH.Stumper := learner;
           AdaBoostMH.D := dist;
           AdaBoostMH.H := [] |}, σ).
End NewAdaBoostMH.

(** ** An implementation of the interfaces, for the examples

    Documents are bags of words carrying a list of tags; a feature is a word
    and tests whether the document contains it. *)

Record doc : Type := { words : list string; tags : list Label }.

#[global] Instance doc_Example : Example doc :=
  {| Labels := tags; HasLabel e l := bool_decide (l ∈ tags e) |}.

#[global] Instance word_Feature : Feature string doc :=
  {| String_ f := f; Test f e := bool_decide (f ∈ words e) |}.

(** One admissible iteration order: the canonical enumeration of the keys. *)
#[global] Instance canonical_order : GoMapOrder :=
  {| range_keys := elements; range_keys_perm := fun X => reflexivity (elements X) |}.

(** First-order stand-ins for [math.Log] and [math.Exp], so that the
    examples run; no theorem depends on them. *)
Definition linear_math : GoMath :=
  {| Log x := (x - 1)%float; Exp x := (1 + x)%float |}.

(** A training set of four documents over the label [A] and the features
    [f] and [g], with the state that the constructors build from it. *)
Definition d1 : doc := {| words := ["f"; "g"]%string; tags := ["A"%string] |}.
Definition d2 : doc := {| words := ["f"%string]; tags := [] |}.
Definition d3 : doc := {| words := ["g"%string]; tags := ["A"%string] |}.
Definition d4 : doc := {| words := []; tags := [] |}.

Definition demo_stumper : DecisionStumper.t doc string :=
  {| DecisionStumper.labels := {["A"%string]};
     DecisionStumper.features := ["f"; "g"]%string;
     DecisionStumper.examples := [d1; d2; d3; d4] |}.

Definition demo_D : gmap Label loc := {["A"%string := 1%positive]}.

Definition demo_store : store :=
  {[1%positive := {| Distribution.P := [0.25; 0.25; 0.25; 0.25]%float |}]}.

Definition demo_boost : AdaBoostMH.t doc string :=
  {| AdaBoostMH.Examples := [d1; d2; d3; d4];
     AdaBoostMH.Stumper := demo_stumper;
     AdaBoostMH.D := demo_D;
     AdaBoostMH.H := [] |}.

(** ** The quantities the specification speaks of

    These follow the words of the specification, not the loops of the
    code; the verification relates the two. *)

(** The entries of [ps] at the positions of the examples that [keep]
    selects: example [i] is paired with weight [i]. *)
Fixpoint selected {E : Type} (keep : E -> bool) (es : list E)
  (ps : list float64) : list float64 :=
  match es, ps with
  | e :: es, p :: ps =>
    if keep e then p :: selected keep es ps else selected keep es ps
  | _, _ => []
  end.

(** A sum of floats, accumulated from 0 in the order of the list. *)
Definition fsum (xs : list float64) : float64 := foldl PrimFloat.add 0%float xs.

Section quantities.
Context {E F : Type} {IE : Example E} {IF : Feature F E}.
Context {GO : GoMapOrder}.
Variables (σ : store) (ds : gmap Label loc) (stumper : DecisionStumper.t E F).

(** The weights of label [l]: the distribution that [ds] points to. *)
Definition weights (l : Label) : list float64 :=
  match dist_of σ ds l with
  | Some d => Distribution.P d
  | None => []
  end.

(** [W+[f,l]]: the weight of the examples that satisfy [f] and carry [l]. *)
Definition Wplus (f : F) (l : Label) : float64 :=
  fsum (selected (fun e => Test f e && HasLabel e l)
          (DecisionStumper.examples stumper) (weights l)).

(** [W-[f,l]]: the weight of the examples that satisfy [f] and do not
    carry [l]. *)
Definition Wminus (f : F) (l : Label) : float64 :=
  fsum (selected (fun e => Test f e && negb (HasLabel e l))
          (DecisionStumper.examples stumper) (weights l)).

(** [Zf = Σ_l sqrt(W+[f,l] * W-[f,l])], over the known labels. *)
Definition Zf (f : F) : float64 :=
  foldl (fun z l => (z + PrimFloat.sqrt (Wplus f l * Wminus f l))%float)
    0%float (range_keys (DecisionStumper.labels stumper)).

(** Every known label has a distribution with a weight for each of the
    stumper's examples. *)
Definition covered : bool :=
  forallb (fun l => match dist_of σ ds l with
                    | Some d => (length (DecisionStumper.examples stumper)
                                 <=? length (Distribution.P d))%nat
                    | None => false
                    end)
    (elements (DecisionStumper.labels stumper)).
End quantities.

(** The weights [ps] after each of the first [length es] of them was
    multiplied by the factor of its example. *)
Fixpoint scaled {E : Type} (g : E -> float64) (es : list E)
  (ps : list float64) : list float64 :=
  match es, ps with
  | e :: es, p :: ps => (p * g e)%float :: scaled g es ps
  | _, _ => ps
  end.

Section orchestrator_state.
Context {E F : Type}.
Variables (a : AdaBoostMH.t E F) (σ : store).

(** The state that [NewAdaBoostMH] sets up and [Round] maintains: every
    known label points to a distribution of its own, with a weight for each
    example of the stumper and of the orchestrator. *)
Definition well_formed : bool :=
  covered σ (AdaBoostMH.D a) (AdaBoostMH.Stumper a)
  && forallb (fun l => match dist_of σ (AdaBoostMH.D a) l with
                       | Some d => (length (AdaBoostMH.Examples a)
                                    <=? length (Distribution.P d))%nat
                       | None => false
                       end)
       (elements (DecisionStumper.labels (AdaBoostMH.Stumper a)))
  && bool_decide (NoDup ((fun l => AdaBoostMH.D a !! l)
                         <$> elements (DecisionStumper.labels (AdaBoostMH.Stumper a)))).
End orchestrator_state.

Section hamming.
Context {E F : Type} {IE : Example E} {IF : Feature F E}.
Context {GO : GoMapOrder}.

(** The Hamming distance of the comment above [Evaluate] and of the
    specification: the number of pairs (example, known label) on which
    the sign test [Predict(...) > 0] disagrees with [HasLabel]. *)
Definition Hamming (a : AdaBoostMH.t E F) (test : list E) : outcome Z :=
  foldM (fun dist example =>
           foldM (fun dist label =>
                    y ← AdaBoostMH.Predict a example label;
                    if Bool.eqb (0 <? y)%float (HasLabel example label)
                    then Done dist
                    else Done (int_add dist 1))
             dist (range_keys (DecisionStumper.labels (AdaBoostMH.Stumper a))))
    0 test.
End hamming.

(** A training set on which the only feature, [g], holds exactly on the
    documents tagged [A]. *)
Definition sharp_stumper : DecisionStumper.t doc string :=
  {| DecisionStumper.labels := {["A"%string]};
     DecisionStumper.features := ["g"%string];
     DecisionStumper.examples := [d3; d4] |}.

Definition sharp_store : store :=
  {[1%positive := {| Distribution.P := [0.5; 0.5]%float |}]}.

Definition sharp_boost : AdaBoostMH.t doc string :=
  {| AdaBoostMH.Examples := [d3; d4];
     AdaBoostMH.Stumper := sharp_stumper;
     AdaBoostMH.D := demo_D;
     AdaBoostMH.H := [] |}.

(** The store of [sharp_boost] once both weights have been divided by
    [zt = 0]. *)
Definition spoiled_store : store :=
  {[1%positive := {| Distribution.P := [infinity; infinity]%float |}]}.

(** A stumper without features, on the examples of [sharp_boost]. *)
Definition bare_boost : AdaBoostMH.t doc string :=
  {| AdaBoostMH.Examples := [d3; d4];
     AdaBoostMH.Stumper :=
       {| DecisionStumper.labels := {["A"%string]};
          DecisionStumper.features := [];
          DecisionStumper.examples := [d3; d4] |};
     AdaBoostMH.D := demo_D;
     AdaBoostMH.H := [] |}.

(** * Verification *)

(** ** Generic facts about outcomes, folds and slices *)

Lemma index_of_nat {A : Type} (l : list A) (i : nat) :
  index l (Z.of_nat i)
  = match l !! i with Some x => Done x | None => Fail IndexOutOfRange end.
Proof.
  unfold index. destruct (Z.ltb_spec (Z.of_nat i) 0) as [Hlt|_]; [lia|].
  rewrite Nat2Z.id. reflexivity.
Qed.

Lemma index_Done {A : Type} (l : list A) (i : Z) (x : A) :
  index l i = Done x -> 0 <= i < len l /\ l !! Z.to_nat i = Some x.
Proof.
  unfold index, len. destruct (Z.ltb_spec i 0) as [|Hi]; [discriminate|].
  destruct (l !! Z.to_nat i) as [y|] eqn:Hy; [|discriminate].
  intros [= ->]. apply lookup_lt_Some in Hy as Hlt. split; [lia|done].
Qed.

Lemma wrap64_small (z : Z) : - 2 ^ 63 <= z < 2 ^ 63 -> wrap64 z = z.
Proof. intros Hz. unfold wrap64. rewrite Z.mod_small; lia. Qed.

(** The arithmetic of [mid] on a non-empty range of slice indices. *)
Lemma mid_range (lo hi : Z) :
  0 <= lo < hi -> hi < 2 ^ 63 ->
  let mid := int_add lo (int_quot (int_sub hi lo) 2) in
  mid = lo + (hi - lo) / 2 /\ lo <= mid < hi.
Proof.
  intros Hlo Hhi. unfold int_add, int_quot, int_sub. cbn zeta.
  rewrite (wrap64_small (hi - lo)) by lia.
  rewrite Z.quot_div_nonneg by lia.
  assert (0 <= (hi - lo) / 2 < hi - lo).
  { split; [apply Z.div_pos; lia|apply Z.div_lt; lia]. }
  rewrite (wrap64_small ((hi - lo) / 2)) by lia.
  rewrite wrap64_small by lia. lia.
Qed.

(** On binary64, [<] implies [<=]. *)
Lemma ltb_leb (x y : float64) : (x <? y)%float = true -> (x <=? y)%float = true.
Proof.
  rewrite ltb_spec, leb_spec. unfold SFltb, SFleb.
  destruct (SFcompare _ _) as [[]|]; done.
Qed.

(** ** [search] and [Sample] *)

Section search_facts.
Variables (s : float64) (cumulative : list float64).
Hypothesis Hlen : len cumulative < 2 ^ 63.

(** What every call that [Sample] leads to satisfies: the lower bound is
    either still 0, or it is an index at which the test [s < cumulative[mid]]
    has already failed. *)
Definition reached (lo hi : Z) : Prop :=
  0 <= lo <= hi /\ hi <= len cumulative /\
  (lo = 0 \/
   lo < hi /\ exists cl, cumulative !! Z.to_nat lo = Some cl
                         /\ (s <? cl)%float = false) /\
  (hi = 0 -> cumulative = [] \/
             exists c0, cumulative !! 0%nat = Some c0 /\ (s <? c0)%float = true).

Lemma search_reached (fuel : nat) (lo hi : Z) :
  reached lo hi ->
  search fuel s cumulative lo hi = OutOfFuel
  \/ (search fuel s cumulative lo hi = Done 0
      /\ exists c0, cumulative !! 0%nat = Some c0 /\ (s <? c0)%float = true)
  \/ (cumulative = [] /\ search fuel s cumulative lo hi = Fail IndexOutOfRange).
Proof.
  revert lo hi. induction fuel as [|fuel IH]; intros lo hi Hr; [by left|].
  destruct Hr as (Hlo & Hhi & Hlow & Hzero). cbn [search].
  destruct (Z.eqb_spec lo hi) as [->|Hne].
  - (* the base case *)
    destruct Hlow as [->|[Hlt _]]; [|lia].
    destruct (Hzero eq_refl) as [->|(c0 & Hc0 & Hs)].
    + right; right. done.
    + right; left. split; [|by exists c0].
      pose proof (index_of_nat cumulative 0) as Hi.
      rewrite Hc0 in Hi. change (Z.of_nat 0) with 0 in Hi. rewrite Hi. cbn.
      rewrite (ltb_leb _ _ Hs). reflexivity.
  - (* the recursive case *)
    assert (Hmid := mid_range lo hi ltac:(lia) ltac:(lia)). cbn zeta in Hmid.
    destruct Hmid as [Hmid Hbounds].
    set (mid := int_add lo (int_quot (int_sub hi lo) 2)) in *.
    destruct (index cumulative mid) as [cm| |] eqn:Hcm.
    2:{ exfalso. unfold index in Hcm.
        destruct (Z.ltb_spec mid 0); [lia|].
        destruct (cumulative !! Z.to_nat mid) eqn:Hl; [discriminate|].
        apply lookup_ge_None in Hl. unfold len in Hhi. lia. }
    2:{ exfalso. unfold index in Hcm.
        destruct (mid <? 0); [discriminate|].
        destruct (cumulative !! Z.to_nat mid); discriminate. }
    apply index_Done in Hcm as [_ Hcm]. cbn.
    destruct (s <? cm)%float eqn:Hs.
    + apply IH. split; [lia|]. split; [lia|]. split.
      * destruct Hlow as [->|(_ & cl & Hcl & Hf)]; [by left|].
        right. split; [|by exists cl].
        destruct (Z.eq_dec mid lo) as [Heq|]; [|lia].
        rewrite Heq in Hcm. congruence.
      * intros Hm0. right. exists cm. split; [|done].
        rewrite Hm0 in Hcm. exact Hcm.
    + apply IH. split; [lia|]. split; [lia|]. split.
      * destruct (Z.eq_dec mid 0) as [Hm0|]; [by left|].
        right. split; [lia|]. by exists cm.
      * lia.
Qed.
End search_facts.

Lemma length_running (sum : float64) (ps : list float64) :
  length (Distribution.running sum ps) = length ps.
Proof. revert sum. induction ps as [|p ps IH]; intros sum; cbn; [done|by rewrite IH]. Qed.

(** From [Sample], [search] can only hang, return index 0 (and then the
    draw is below the first cumulative value), or fault on the empty slice:
    the explicit panic is out of reach. *)
Lemma Sample_outcomes (fuel : nat) (dist : Distribution.t) (draw : float64) :
  len (Distribution.P dist) < 2 ^ 63 ->
  Distribution.Sample fuel dist draw = OutOfFuel
  \/ (Distribution.Sample fuel dist draw = Done 0
      /\ exists c0, Distribution.cumulative_of dist !! 0%nat = Some c0
                    /\ (draw <? c0)%float = true)
  \/ (Distribution.P dist = []
      /\ Distribution.Sample fuel dist draw = Fail IndexOutOfRange).
Proof.
  intros Hlen. unfold Distribution.Sample. cbn zeta.
  set (cumulative := Distribution.cumulative_of dist).
  assert (Hl : len cumulative = len (Distribution.P dist)).
  { unfold len, cumulative, Distribution.cumulative_of. by rewrite length_running. }
  destruct (search_reached draw cumulative ltac:(lia) fuel 0 (len cumulative))
    as [Ho|[Ho|[Hnil Ho]]]; [|by left|by right; left|].
  - split; [unfold len; lia|]. split; [lia|]. split; [by left|].
    intros H0. left. unfold len in H0. destruct cumulative; [done|cbn in H0; lia].
  - right; right. split; [|done].
    rewrite Hnil in Hl. unfold len in Hl. cbn in Hl.
    destruct (Distribution.P dist); [done|cbn in Hl; lia].
Qed.

(** X1. Entered from [Sample], [search] never raises its own panic
    ("Search did not find a valid index"), whatever the weights and the
    draw: that check sits behind a lower bound that is still 0. *)
Lemma Sample_never_reports (fuel : nat) (dist : Distribution.t) (draw : float64) :
  len (Distribution.P dist) < 2 ^ 63 ->
  Distribution.Sample fuel dist draw <> Fail InvariantViolation.
Proof.
  intros Hlen.
  destruct (Sample_outcomes fuel dist draw Hlen) as [->|[[-> _]|[_ ->]]]; discriminate.
Qed.

Lemma Sample_returns_only_zero (fuel : nat) (dist : Distribution.t)
  (draw : float64) (i : Z) :
  len (Distribution.P dist) < 2 ^ 63 ->
  Distribution.Sample fuel dist draw = Done i -> i = 0.
Proof.
  intros Hlen.
  destruct (Sample_outcomes fuel dist draw Hlen) as [->|[[-> _]|[_ ->]]]; congruence.
Qed.

(** X3. Every draw that is not below the first cumulative value makes
    [Sample] hang, on any non-empty distribution: no fuel lets it return. *)
Lemma Sample_hangs_beyond_first_bucket (dist : Distribution.t)
  (draw c0 : float64) :
  len (Distribution.P dist) < 2 ^ 63 ->
  Distribution.cumulative_of dist !! 0%nat = Some c0 ->
  (draw <? c0)%float = false ->
  forall fuel, Distribution.Sample fuel dist draw = OutOfFuel.
Proof.
  intros Hlen Hc0 Hs fuel.
  destruct (Sample_outcomes fuel dist draw Hlen)
    as [H|[[_ (c & Hc & Hlt)]|[Hnil _]]]; [done| |].
  - congruence.
  - unfold Distribution.cumulative_of in Hc0. by rewrite Hnil in Hc0.
Qed.

(** The defect: on a range of one element whose test fails, the recursive
    call is made on the very same range. *)
Lemma search_no_progress (s : float64) (cumulative : list float64) (lo : Z)
  (cl : float64) :
  0 <= lo -> lo + 1 < 2 ^ 63 ->
  index cumulative lo = Done cl -> (s <? cl)%float = false ->
  forall fuel, search fuel s cumulative lo (lo + 1) = OutOfFuel.
Proof.
  intros Hlo Hhi Hcl Hs fuel. induction fuel as [|fuel IH]; [done|].
  cbn [search]. destruct (Z.eqb_spec lo (lo + 1)) as [|_]; [lia|].
  destruct (mid_range lo (lo + 1) ltac:(lia) ltac:(lia)) as [Hmid _].
  cbn zeta in Hmid. replace (lo + 1 - lo) with 1 in Hmid by lia.
  change (1 / 2) with 0 in Hmid. rewrite Z.add_0_r in Hmid.
  rewrite Hmid, Hcl. cbn. rewrite Hs. exact IH.
Qed.

(** C2 (defect). With weights [0.5; 0.5] the cumulative array is
    [0.5; 1], a valid one; the draw 0.75 lies in bucket 1 and in no other;
    yet no amount of fuel lets [Sample] return: [search] narrows the range to
    [0, 1) and then calls itself on [0, 1) for ever. *)
Theorem Sample_hangs_on_valid_distribution :
  let dist := {| Distribution.P := [0.5; 0.5]%float |} in
  Distribution.cumulative_of dist = [0.5; 1]%float
  /\ bucket 0.75 [0.5; 1]%float 1 = true
  /\ (forall i, bucket 0.75 [0.5; 1]%float i = true -> i = 1%nat)
  /\ forall fuel, Distribution.Sample fuel dist 0.75 = OutOfFuel.
Proof.
  cbn zeta. split; [reflexivity|]. split; [reflexivity|]. split.
  - intros [|[|i]]; [discriminate|done|discriminate].
  - intros [|fuel]; [reflexivity|].
    transitivity (search fuel 0.75 [0.5; 1]%float 0 (0 + 1)); [reflexivity|].
    apply (search_no_progress _ _ 0 0.5%float); [lia|lia|reflexivity|reflexivity].
Qed.

(** C3 (defect). The weights [0.25; 0.25] give the cumulative array
    [0.25; 0.5], which does not reach 1; the draw 0.75 lies in no bucket.
    [search] does not report the violation: it calls itself on [1, 2) for
    ever. *)
Theorem search_hangs_instead_of_reporting :
  let dist := {| Distribution.P := [0.25; 0.25]%float |} in
  Distribution.cumulative_of dist = [0.25; 0.5]%float
  /\ (forall i, bucket 0.75 [0.25; 0.5]%float i = false)
  /\ forall fuel, Distribution.Sample fuel dist 0.75 = OutOfFuel
                  /\ search fuel 0.75 [0.25; 0.5]%float 0 2 <> Fail InvariantViolation.
Proof.
  cbn zeta. split; [reflexivity|]. split.
  - intros [|[|i]]; reflexivity.
  - assert (Hhang : forall fuel, search fuel 0.75 [0.25; 0.5]%float 0 2 = OutOfFuel).
    { intros [|fuel]; [reflexivity|].
      transitivity (search fuel 0.75 [0.25; 0.5]%float 1 (1 + 1)); [reflexivity|].
      apply (search_no_progress _ _ 1 0.5%float); [lia|lia|reflexivity|reflexivity]. }
    intros fuel. split; [apply Hhang|]. rewrite Hhang. discriminate.
Qed.

(** ** [DecisionStump.Predict] *)

Section stump_facts.
Context {E F : Type} {IE : Example E} {IF : Feature F E}.

(** C9. A stump whose feature tests false on the example answers the
    sentinel -1, whatever the label, the example's labels and the stored
    confidences; when the feature tests true it answers the confidence
    stored for the label (a label without an entry reads as 0, the zero
    value of the Go map). *)
Theorem stump_Predict_sentinel_or_confidence
  (f : F) (c : gmap Label float64) (zt : float64) (e : E) (l : Label) :
  DecisionStump.Predict
    {| DecisionStump.Feature := Some f; DecisionStump.c := c;
       DecisionStump.zt := zt |} e l
  = Done (if Test f e then default 0%float (c !! l) else (-1)%float).
Proof. unfold DecisionStump.Predict. cbn. by destruct (Test f e). Qed.

Lemma stump_Predict_Some (h : DecisionStump.t F) (f : F) (e : E) (l : Label) :
  DecisionStump.Feature h = Some f ->
  DecisionStump.Predict h e l
  = Done (if Test f e then default 0%float (DecisionStump.c h !! l)
          else (-1)%float).
Proof. intros Hf. unfold DecisionStump.Predict. rewrite Hf. by destruct (Test f e). Qed.
End stump_facts.

(** ** Folds that cannot fail *)

Lemma foldM_total {A B : Type} (body : B -> A -> outcome B) (l : list A) (acc : B) :
  (forall acc x, x ∈ l -> exists acc', body acc x = Done acc') ->
  exists r, foldM body acc l = Done r.
Proof.
  revert acc. induction l as [|x l IH]; intros acc Hbody; cbn; [by eexists|].
  destruct (Hbody acc x) as [acc' ->]; [set_solver|]. cbn.
  apply IH. intros ? ? ?. apply Hbody. set_solver.
Qed.

Lemma UniformDistribution_len {A : Type} (es : list A) :
  exists d, UniformDistribution (len es) = Done d
            /\ length (Distribution.P d) = length es.
Proof.
  unfold UniformDistribution, len.
  destruct (Z.ltb_spec (Z.of_nat (length es)) 0) as [|_]; [lia|].
  eexists. split; [reflexivity|]. cbn. rewrite length_replicate. lia.
Qed.

(** ** Construction *)

Section construction_facts.
Context {E F : Type} {IE : Example E} {IF : Feature F E}.
Context {EqF : EqDecision F} {CntF : Countable F}.
Context {GM : GoMath} {GO : GoMapOrder}.

Lemma collect_labels (es : list E) (X : gset Label) (l : Label) :
  l ∈ foldl (fun labels e =>
               foldl (fun labels l => {[l]} ∪ labels) labels (Labels e)) X es
  <-> l ∈ X \/ exists e, e ∈ es /\ l ∈ Labels e.
Proof.
  revert X. induction es as [|e es IH]; intros X; cbn.
  - split; [by left|]. intros [|(e & He & _)]; [done|]. by apply elem_of_nil in He.
  - rewrite IH.
    assert (Hin : forall (ls : list Label) (Y : gset Label),
               l ∈ foldl (fun labels l => {[l]} ∪ labels) Y ls <-> l ∈ Y \/ l ∈ ls).
    { induction ls as [|x ls IHls]; intros Y; cbn; [set_solver|].
      rewrite IHls. set_solver. }
    rewrite Hin. split.
    + intros [[|]|(e' & He' & Hl)]; [by left| |].
      * right. exists e. set_solver.
      * right. exists e'. set_solver.
    + intros [|(e' & He' & Hl)]; [by left; left|].
      apply elem_of_cons in He' as [->|He']; [by left; right|].
      right. by exists e'.
Qed.

(** C4 (as amended). [NewDecisionStumper] validates nothing: whatever the
    features and examples, empty or not, it returns a stumper that holds
    them unchanged together with the set of labels the examples list.
    A stumper without features is accepted like any other, and [NewStump]
    then returns a stump whose feature is nil. *)
Theorem NewDecisionStumper_accepts_everything (fs : list F) (es : list E) :
  exists st, NewDecisionStumper fs es = Done st
    /\ DecisionStumper.features st = fs
    /\ DecisionStumper.examples st = es
    /\ (forall l, l ∈ DecisionStumper.labels st
                  <-> exists e, e ∈ es /\ l ∈ Labels e)
    /\ forall σ ds, exists h,
         DecisionStumper.NewStump σ
           {| DecisionStumper.labels := DecisionStumper.labels st;
              DecisionStumper.features := [];
              DecisionStumper.examples := es |} ds = Done h
         /\ DecisionStump.Feature h = None.
Proof.
  eexists. split; [reflexivity|]. cbn. split; [done|]. split; [done|]. split.
  - intros l. rewrite collect_labels. set_solver.
  - intros σ ds. eexists. split; reflexivity.
Qed.

Lemma Predict_empty (a : AdaBoostMH.t E F) (e : E) (l : Label) :
  AdaBoostMH.H a = [] -> AdaBoostMH.Predict a e l = Done 0%float.
Proof. unfold AdaBoostMH.Predict. by intros ->. Qed.

Lemma NewAdaBoostMH_total (σ : store) (es : list E)
  (learner : DecisionStumper.t E F) :
  exists dist σ',
    NewAdaBoostMH σ es learner
    = Done ({| AdaBoostMH.Examples := es; AdaBoostMH.Stumper := learner;
               AdaBoostMH.D := dist; AdaBoostMH.H := [] |}, σ').
Proof.
  unfold NewAdaBoostMH.
  match goal with
  | |- context [foldM ?body ?acc ?l] =>
    destruct (foldM_total body l acc) as [[dist σ'] ->]
  end.
  - intros [dist0 σ0] label _.
    destruct (UniformDistribution_len es) as (d & -> & _). cbn. by eexists.
  - cbn. by exists dist, σ'.
Qed.

(** C10. The orchestrator is constructed with an empty ensemble, and on
    an empty ensemble [Predict] returns exactly 0 for every example and
    label; 0 is not positive, so every label is predicted absent. *)
Theorem Predict_before_first_round (σ : store) (es : list E)
  (learner : DecisionStumper.t E F) :
  exists a σ', NewAdaBoostMH σ es learner = Done (a, σ')
    /\ AdaBoostMH.H a = []
    /\ forall e l, AdaBoostMH.Predict a e l = Done 0%float
                   /\ (0 <? 0)%float = false.
Proof.
  destruct (NewAdaBoostMH_total σ es learner) as (dist & σ' & ->).
  eexists _, σ'. split; [reflexivity|]. split; [reflexivity|].
  intros e l. split; reflexivity.
Qed.
End construction_facts.

(** C4 (counterexample). With no feature and no example, hence no label,
    [NewDecisionStumper] returns an empty stumper; it does not fail. *)
Lemma NewDecisionStumper_accepts_empty :
  NewDecisionStumper (E := doc) (F := string) [] []
  = Done {| DecisionStumper.labels := ∅; DecisionStumper.features := [];
            DecisionStumper.examples := [] |}
  /\ forall e, NewDecisionStumper (E := doc) (F := string) [] [] <> Fail e.
Proof. split; [reflexivity|]. intros e. discriminate. Qed.

(** ** [NewStump] *)

Lemma foldl_ext_in {A B : Type} (g g' : B -> A -> B) (l : list A) (acc : B) :
  (forall acc x, x ∈ l -> g acc x = g' acc x) ->
  foldl g acc l = foldl g' acc l.
Proof.
  revert acc. induction l as [|x l IH]; intros acc Hg; cbn; [done|].
  rewrite Hg by set_solver. apply IH. intros ? ? ?. apply Hg. set_solver.
Qed.

Lemma selected_ext {E : Type} (keep keep' : E -> bool) (es : list E)
  (ps : list float64) :
  (forall e, keep e = keep' e) -> selected keep es ps = selected keep' es ps.
Proof.
  intros Hk. revert ps. induction es as [|e es IH]; intros [|p ps]; cbn; try done.
  rewrite Hk, IH. done.
Qed.

Lemma range_keys_elem `{GO : GoMapOrder} (X : gset Label) (l : Label) :
  l ∈ range_keys X <-> l ∈ X.
Proof. rewrite (range_keys_perm X). apply elem_of_elements. Qed.

Lemma range_keys_NoDup `{GO : GoMapOrder} (X : gset Label) : NoDup (range_keys X).
Proof. rewrite (range_keys_perm X). apply NoDup_elements. Qed.

Section NewStump_facts.
Context {E F : Type} {IE : Example E} {IF : Feature F E}.
Context {EqF : EqDecision F} {CntF : Countable F}.
Context {GM : GoMath} {GO : GoMapOrder}.
Variables (σ : store) (ds : gmap Label loc) (stumper : DecisionStumper.t E F).

#[local] Abbreviation ks := (range_keys (DecisionStumper.labels stumper)).
#[local] Abbreviation wget := (DecisionStumper.wget (F := F)).
#[local] Abbreviation wmap := (gmap (DecisionStumper.key (F := F)) float64).

(** The selection of the examples counted in [w[key{b, f, l}]]. *)
Definition counted (f : F) (b : bool) (l : Label) (e : E) : bool :=
  Test f e && Bool.eqb (HasLabel e l) b.

Definition Wb (b : bool) (f : F) (l : Label) : float64 :=
  fsum (selected (counted f b l) (DecisionStumper.examples stumper)
          (weights σ ds l)).

Lemma Wb_true (f : F) (l : Label) : Wb true f l = Wplus σ ds stumper f l.
Proof.
  unfold Wb, Wplus. apply (f_equal fsum), selected_ext. intros e. unfold counted.
  by destruct (HasLabel e l).
Qed.

Lemma Wb_false (f : F) (l : Label) : Wb false f l = Wminus σ ds stumper f l.
Proof.
  unfold Wb, Wminus. apply (f_equal fsum), selected_ext. intros e. unfold counted.
  by destruct (HasLabel e l).
Qed.

Lemma covered_spec (l : Label) :
  covered σ ds stumper = true -> l ∈ DecisionStumper.labels stumper ->
  exists d, dist_of σ ds l = Some d
            /\ (length (DecisionStumper.examples stumper)
                <= length (Distribution.P d))%nat.
Proof.
  unfold covered. rewrite forallb_forall. intros Hall Hl.
  specialize (Hall l). rewrite <- list_elem_of_In, elem_of_elements in Hall.
  specialize (Hall Hl). destruct (dist_of σ ds l) as [d|]; [|done].
  exists d. split; [done|]. by apply Nat.leb_le.
Qed.

Lemma wget_insert (w : wmap) (k k' : DecisionStumper.key) (x : float64) :
  wget (<[k := x]> w) k' = if decide (k = k') then x else wget w k'.
Proof.
  unfold DecisionStumper.wget. rewrite lookup_insert.
  by destruct (decide (k = k')).
Qed.

Lemma clear_spec (f : F) (ls : list Label) (w : wmap)
  (b : bool) (fo : option F) (l : Label) :
  wget (foldl (DecisionStumper.clear f) w ls) (b, fo, l)
  = if decide (fo = Some f /\ l ∈ ls) then 0%float else wget w (b, fo, l).
Proof.
  revert w. induction ls as [|k ls IH]; intros w; cbn.
  - destruct (decide _) as [[_ Hl]|]; [|done]. by apply elem_of_nil in Hl.
  - rewrite IH. unfold DecisionStumper.clear. rewrite !wget_insert.
    repeat destruct (decide _); try done; destruct b; naive_solver (set_solver).
Qed.

(** The loop over the labels for one example on which [f] tests true. *)
Lemma accumulate_spec (f : F) (i : nat) (e : E) (ls : list Label) (w : wmap) :
  NoDup ls ->
  (forall l, l ∈ ls -> exists d x, dist_of σ ds l = Some d
                                   /\ Distribution.P d !! i = Some x) ->
  exists w', foldM (DecisionStumper.accumulate σ ds f i e) w ls = Done w'
    /\ forall b fo l,
         wget w' (b, fo, l)
         = if decide (fo = Some f /\ l ∈ ls /\ b = HasLabel e l)
           then (wget w (b, fo, l) + default 0 (weights σ ds l !! i))%float
           else wget w (b, fo, l).
Proof.
  revert w. induction ls as [|k ls IH]; intros w Hnd Hcov; cbn.
  - eexists. split; [done|]. intros b fo l.
    destruct (decide _) as [(_ & Hl & _)|]; [|done]. by apply elem_of_nil in Hl.
  - apply NoDup_cons in Hnd as [Hk Hnd].
    destruct (Hcov k) as (d & x & Hd & Hx); [set_solver|].
    assert (Hstep : DecisionStumper.accumulate σ ds f i e w k
                    = Done (<[(HasLabel e k, Some f, k) :=
                               (wget w (HasLabel e k, Some f, k) + x)%float]> w)).
    { unfold DecisionStumper.accumulate, load. rewrite Hd. cbn.
      by rewrite index_of_nat, Hx. }
    rewrite Hstep. cbn.
    destruct (IH (<[(HasLabel e k, Some f, k) :=
                      (wget w (HasLabel e k, Some f, k) + x)%float]> w) Hnd)
      as (w' & -> & Hw'); [intros; apply Hcov; set_solver|].
    exists w'. split; [done|]. intros b fo l. rewrite Hw', wget_insert.
    assert (Hwk : default 0%float (weights σ ds k !! i) = x).
    { unfold weights. by rewrite Hd, Hx. }
    repeat destruct (decide _); simplify_eq; try done;
      try (rewrite ?Hwk; done); try (exfalso; naive_solver (set_solver)).
Qed.

Lemma scan_spec (f : F) (es : list E) (i : nat) (w : wmap) :
  (forall l, l ∈ ks -> exists d, dist_of σ ds l = Some d
               /\ (i + length es <= length (Distribution.P d))%nat) ->
  exists w',
    foldMi (fun w i example =>
              if negb (Test f example) then Done w
              else foldM (DecisionStumper.accumulate σ ds f i example) w ks)
      i w es = Done w'
    /\ forall b fo l,
         wget w' (b, fo, l)
         = if decide (fo = Some f /\ l ∈ ks)
           then foldl PrimFloat.add (wget w (b, fo, l))
                  (selected (counted f b l) es (drop i (weights σ ds l)))
           else wget w (b, fo, l).
Proof.
  revert i w. induction es as [|e es IH]; intros i w Hcov.
  - eexists. split; [done|]. intros b fo l. by destruct (decide _).
  - assert (Hhead : forall l, l ∈ ks ->
              exists x, weights σ ds l !! i = Some x
                        /\ drop i (weights σ ds l)
                           = x :: drop (S i) (weights σ ds l)).
    { intros l Hl. destruct (Hcov l Hl) as (d & Hd & Hlen). cbn in Hlen.
      unfold weights. rewrite Hd.
      destruct (lookup_lt_is_Some_2 (Distribution.P d) i) as [x Hx]; [lia|].
      exists x. split; [done|]. by apply drop_S. }
    assert (Hrest : forall l, l ∈ ks -> exists d, dist_of σ ds l = Some d
               /\ (S i + length es <= length (Distribution.P d))%nat).
    { intros l Hl. destruct (Hcov l Hl) as (d & Hd & Hlen). cbn in Hlen.
      exists d. split; [done|lia]. }
    cbn [foldMi]. destruct (Test f e) eqn:Ht; cbn [negb].
    + destruct (accumulate_spec f i e ks w (range_keys_NoDup _)) as (w1 & -> & Hw1).
      { intros l Hl. destruct (Hcov l Hl) as (d & Hd & Hlen). cbn in Hlen.
        destruct (lookup_lt_is_Some_2 (Distribution.P d) i) as [x Hx]; [lia|].
        by exists d, x. }
      cbn. destruct (IH (S i) w1 Hrest) as (w' & -> & Hw').
      exists w'. split; [done|]. intros b fo l. rewrite Hw', Hw1.
      destruct (decide (fo = Some f /\ l ∈ ks)) as [[-> Hl]|Hn].
      * destruct (Hhead l Hl) as (x & Hx & ->). rewrite Hx. cbn.
        unfold counted at 2. rewrite Ht. cbn.
        destruct (decide _) as [(_ & _ & ->)|Hb].
        -- by rewrite Bool.eqb_reflx.
        -- destruct (Bool.eqb (HasLabel e l) b) eqn:Heq; [|done].
           apply Bool.eqb_prop in Heq. naive_solver.
      * destruct (decide _); [naive_solver|done].
    + cbn. destruct (IH (S i) w Hrest) as (w' & -> & Hw').
      exists w'. split; [done|]. intros b fo l. rewrite Hw'.
      destruct (decide (fo = Some f /\ l ∈ ks)) as [[-> Hl]|Hn]; [|done].
      destruct (Hhead l Hl) as (x & Hx & ->). cbn.
      unfold counted at 2. by rewrite Ht.
Qed.

Hypothesis Hcovered : covered σ ds stumper = true.

Lemma weigh_spec (w : wmap) (f : F) :
  exists w', DecisionStumper.weigh σ stumper ds w f = Done w'
    /\ forall b fo l,
         wget w' (b, fo, l)
         = if decide (fo = Some f /\ l ∈ ks) then Wb b f l
           else wget w (b, fo, l).
Proof.
  unfold DecisionStumper.weigh.
  destruct (scan_spec f (DecisionStumper.examples stumper) 0
              (foldl (DecisionStumper.clear f) w ks)) as (w' & -> & Hw').
  { intros l Hl. apply range_keys_elem in Hl.
    destruct (covered_spec l Hcovered Hl) as (d & Hd & Hlen). by exists d. }
  exists w'. split; [done|]. intros b fo l. rewrite Hw', clear_spec.
  by destruct (decide _).
Qed.

(** The table [w] after the first loop nest. *)
Lemma W_spec (fs : list F) (w0 : wmap) :
  exists w, foldM (DecisionStumper.weigh σ stumper ds) w0 fs = Done w
    /\ forall b f l,
         wget w (b, Some f, l)
         = if decide (f ∈ fs /\ l ∈ ks) then Wb b f l
           else wget w0 (b, Some f, l).
Proof.
  revert w0. induction fs as [|f0 fs IH]; intros w0; cbn.
  - eexists. split; [done|]. intros b f l.
    destruct (decide _) as [[Hf _]|]; [|done]. by apply elem_of_nil in Hf.
  - destruct (weigh_spec w0 f0) as (w1 & -> & Hw1). cbn.
    destruct (IH w1) as (w & -> & Hw). exists w. split; [done|].
    intros b f l. rewrite Hw, Hw1.
    destruct (decide (Some f = Some f0 /\ l ∈ ks)) as [[[= ->] Hl]|Hn3].
    + rewrite (decide_True (P := f0 ∈ f0 :: fs /\ l ∈ ks)) by set_solver.
      by destruct (decide _).
    + destruct (decide (f ∈ fs /\ l ∈ ks)) as [H2|H2].
      * by rewrite decide_True by set_solver.
      * rewrite decide_False; [done|]. intros [Hf Hl].
        apply elem_of_cons in Hf as [->|Hf]; [by apply Hn3|by apply H2].
Qed.

(** The selection loop: [zt] accumulates every score, and the selected
    feature, if any, is one of the scanned ones. *)
Lemma select_spec (w : wmap) (fs : list F) (fMin : option F)
  (zMin zt : float64) :
  exists fMin' zMin',
    foldl (DecisionStumper.select stumper w) (fMin, zMin, zt) fs
    = (fMin', zMin',
       foldl (fun z f => (z + DecisionStumper.score stumper w f)%float) zt fs)
    /\ (fMin' = fMin \/ exists f, fMin' = Some f /\ f ∈ fs).
Proof.
  revert fMin zMin zt. induction fs as [|f fs IH]; intros fMin zMin zt; cbn.
  - exists fMin, zMin. split; [done|by left].
  - destruct (DecisionStumper.score stumper w f <? zMin)%float.
    + destruct (IH (Some f) (DecisionStumper.score stumper w f)
                  (zt + DecisionStumper.score stumper w f)%float)
        as (fMin' & zMin' & -> & Hsel).
      exists fMin', zMin'. split; [done|]. right.
      destruct Hsel as [->|(f' & -> & Hf')]; [exists f|exists f']; set_solver.
    + destruct (IH fMin zMin (zt + DecisionStumper.score stumper w f)%float)
        as (fMin' & zMin' & -> & Hsel).
      exists fMin', zMin'. split; [done|].
      destruct Hsel as [->|(f' & -> & Hf')]; [by left|right; exists f'; set_solver].
Qed.

Lemma confidences_lookup (g : Label -> float64) (ls : list Label)
  (c0 : gmap Label float64) (l : Label) :
  foldl (fun c label => <[label := g label]> c) c0 ls !! l
  = if decide (l ∈ ls) then Some (g l) else c0 !! l.
Proof.
  revert c0. induction ls as [|k ls IH]; intros c0; cbn.
  - destruct (decide _) as [Hl|]; [|done]. by apply elem_of_nil in Hl.
  - rewrite IH, lookup_insert.
    repeat destruct (decide _); simplify_eq; try done; exfalso; set_solver.
Qed.

Lemma score_spec (w : wmap) (f : F) :
  (forall b l, l ∈ ks -> wget w (b, Some f, l) = Wb b f l) ->
  DecisionStumper.score stumper w f = Zf σ ds stumper f.
Proof.
  intros Hw. unfold DecisionStumper.score, Zf. apply foldl_ext_in.
  intros z l Hl. by rewrite !Hw, Wb_true, Wb_false.
Qed.

(** One run of [NewStump], with its three phases exposed. *)
Lemma NewStump_run :
  exists w fMin,
    (forall b f l, f ∈ DecisionStumper.features stumper -> l ∈ ks ->
                   wget w (b, Some f, l) = Wb b f l)
    /\ (fMin = None
        \/ exists f, fMin = Some f /\ f ∈ DecisionStumper.features stumper)
    /\ DecisionStumper.NewStump σ stumper ds
       = Done {| DecisionStump.Feature := fMin;
                 DecisionStump.c :=
                   foldl (fun c label =>
                            <[label := DecisionStumper.confidence w fMin label]> c)
                     ∅ ks;
                 DecisionStump.zt :=
                   (foldl (fun z f => z + Zf σ ds stumper f)
                      0 (DecisionStumper.features stumper) * 2)%float |}.
Proof.
  destruct (W_spec (DecisionStumper.features stumper) ∅) as (w & Hrun & Hw).
  assert (Hw' : forall b f l, f ∈ DecisionStumper.features stumper -> l ∈ ks ->
                              wget w (b, Some f, l) = Wb b f l).
  { intros b f l Hf Hl. rewrite Hw. by rewrite decide_True. }
  destruct (select_spec w (DecisionStumper.features stumper) None MaxFloat64 0)
    as (fMin & zMin & Hsel & HfMin).
  exists w, fMin. split; [exact Hw'|]. split.
  { destruct HfMin as [->|?]; [by left|by right]. }
  unfold DecisionStumper.NewStump. rewrite Hrun. cbn. rewrite Hsel.
  do 3 f_equal. apply foldl_ext_in. intros z f Hf.
  rewrite score_spec; [done|]. intros b l Hl. by apply Hw'.
Qed.


End NewStump_facts.



(** The demonstration state is the one the constructors build, and on it
    [NewStump] selects [g], with [zt = 0.5]. *)
Example demo_is_constructed :
  NewDecisionStumper ["f"; "g"]%string [d1; d2; d3; d4] = Done demo_stumper
  /\ NewAdaBoostMH ∅ [d1; d2; d3; d4] demo_stumper
     = Done (demo_boost, demo_store).
Proof. split; vm_compute; reflexivity. Qed.

Example demo_stump (GM : GoMath) :
  DecisionStumper.NewStump demo_store demo_stumper demo_D
  = Done {| DecisionStump.Feature := Some "g"%string;
            DecisionStump.c := {["A"%string := (0.5 * Log (1.5 / 1))%float]};
            DecisionStump.zt := 0.5%float |}.
Proof. vm_compute. reflexivity. Qed.

(** ** [Round] *)

Lemma scaled_length {E : Type} (g : E -> float64) (es : list E) (ps : list float64) :
  length (scaled g es ps) = length ps.
Proof.
  revert ps. induction es as [|e es IH]; intros [|p ps]; cbn; try done.
  by rewrite IH.
Qed.

Lemma scaled_lookup {E : Type} (g : E -> float64) (es : list E)
  (ps : list float64) (i : nat) (e : E) (x : float64) :
  es !! i = Some e -> ps !! i = Some x ->
  scaled g es ps !! i = Some (x * g e)%float.
Proof.
  revert ps i. induction es as [|e0 es IH]; intros [|p ps] [|i]; cbn; try done.
  - by intros [= ->] [= ->].
  - apply IH.
Qed.

Lemma scaled_beyond {E : Type} (g : E -> float64) (es : list E)
  (ps : list float64) (i : nat) :
  (length es <= i)%nat -> scaled g es ps !! i = ps !! i.
Proof.
  revert ps i. induction es as [|e0 es IH]; intros [|p ps] [|i]; cbn; try done;
    try lia.
  intros Hle. apply IH. lia.
Qed.

Section Round_facts.
Context {E F : Type} {IE : Example E} {IF : Feature F E}.
Context {EqF : EqDecision F} {CntF : Countable F}.
Context {GM : GoMath} {GO : GoMapOrder}.
Variables (a : AdaBoostMH.t E F) (h : DecisionStump.t F) (f : F).
Hypothesis Hfeature : DecisionStump.Feature h = Some f.

(** The factor that [Round] applies to the weight of [e] under [l]. *)
Definition factor (l : Label) (e : E) : float64 :=
  (Exp (hasLabel e l
        * (if Test f e then default 0 (DecisionStump.c h !! l) else -1))
   / DecisionStump.zt h)%float.

(** The loop over the examples, for one label. *)
Lemma update_loop (l : Label) (p : loc) (es : list E) (i : nat)
  (σ : store) (d : Distribution.t) :
  AdaBoostMH.D a !! l = Some p -> σ !! p = Some d ->
  (i + length es <= length (Distribution.P d))%nat ->
  foldMi (AdaBoostMH.update a h l) i σ es
  = Done (<[p := {| Distribution.P :=
                      take i (Distribution.P d)
                      ++ scaled (factor l) es (drop i (Distribution.P d)) |}]> σ).
Proof.
  intros Hp. revert i σ d. induction es as [|e es IH]; intros i σ d Hd Hlen.
  - cbn. rewrite take_drop. f_equal. symmetry. apply insert_id.
    by destruct d.
  - cbn in Hlen. cbn [foldMi].
    destruct (lookup_lt_is_Some_2 (Distribution.P d) i) as [x Hx]; [lia|].
    assert (Hstep : AdaBoostMH.update a h l σ i e
              = Done (<[p := {| Distribution.P :=
                                  <[i := (x * factor l e)%float]> (Distribution.P d) |}]> σ)).
    { unfold AdaBoostMH.update, load, dist_of. rewrite Hp. cbn. rewrite Hd. cbn.
      rewrite index_of_nat, Hx. cbn.
      by rewrite (stump_Predict_Some h f e l Hfeature). }
    rewrite Hstep. cbn.
    rewrite (IH (S i) _ {| Distribution.P :=
                  <[i := (x * factor l e)%float]> (Distribution.P d) |});
      [|by rewrite lookup_insert_eq|cbn; rewrite length_insert; lia].
    cbn. rewrite insert_insert_eq. do 3 f_equal.
    rewrite (drop_S _ _ _ Hx). cbn.
    rewrite drop_insert_lt by lia.
    rewrite (take_S_r _ _ (x * factor l e)%float)
      by (apply list_lookup_insert_eq; lia).
    rewrite take_insert_ge by lia. by rewrite <- app_assoc.
Qed.

(** The loop over the labels. *)
Lemma reweigh_loop (ls : list Label) (σ : store) :
  NoDup ls ->
  (forall l, l ∈ ls -> exists p d, AdaBoostMH.D a !! l = Some p /\ σ !! p = Some d
      /\ (length (AdaBoostMH.Examples a) <= length (Distribution.P d))%nat) ->
  (forall l1 l2, l1 ∈ ls -> l2 ∈ ls ->
                 AdaBoostMH.D a !! l1 = AdaBoostMH.D a !! l2 -> l1 = l2) ->
  exists σ',
    foldM (fun σ label =>
             foldMi (AdaBoostMH.update a h label) 0%nat σ (AdaBoostMH.Examples a))
      σ ls = Done σ'
    /\ (forall l p d, l ∈ ls -> AdaBoostMH.D a !! l = Some p -> σ !! p = Some d ->
          σ' !! p = Some {| Distribution.P :=
                              scaled (factor l) (AdaBoostMH.Examples a)
                                (Distribution.P d) |})
    /\ (forall p, (forall l, l ∈ ls -> AdaBoostMH.D a !! l <> Some p) ->
                  σ' !! p = σ !! p).
Proof.
  revert σ. induction ls as [|k ls IH]; intros σ Hnd Hcov Hinj.
  - exists σ. split; [done|]. split; [|done].
    intros l p d Hl. by apply elem_of_nil in Hl.
  - apply NoDup_cons in Hnd as [Hk Hnd].
    destruct (Hcov k) as (pk & dk & Hpk & Hdk & Hlen); [set_solver|].
    cbn [foldM]. rewrite (update_loop k pk _ 0 σ dk Hpk Hdk) by (cbn; lia).
    cbn. rewrite drop_0.
    set (σ1 := <[pk := _]> σ).
    assert (Hother : forall l p, l ∈ ls -> AdaBoostMH.D a !! l = Some p -> p <> pk).
    { intros l p Hl Hp ->. apply Hk.
      rewrite <- (Hinj l k); [done|set_solver|set_solver|congruence]. }
    destruct (IH σ1 Hnd) as (σ' & -> & Hupd & Hkeep).
    { intros l Hl. destruct (Hcov l) as (p & d & Hp & Hd & Hlen'); [set_solver|].
      exists p, d. split; [done|]. split; [|done].
      unfold σ1. rewrite lookup_insert_ne; [done|].
      intros Heq. apply (Hother l p Hl Hp). congruence. }
    { intros l1 l2 H1 H2. apply Hinj; set_solver. }
    exists σ'. split; [done|]. split.
    + intros l p d Hl Hp Hd. apply elem_of_cons in Hl as [->|Hl].
      * assert (p = pk) as -> by congruence. assert (d = dk) as -> by congruence.
        rewrite Hkeep; [unfold σ1; by rewrite lookup_insert_eq|].
        intros l Hl Hpl. by apply (Hother l pk Hl Hpl).
      * apply (Hupd l p d Hl Hp). unfold σ1. rewrite lookup_insert_ne; [done|].
        intros Heq. apply (Hother l p Hl Hp). congruence.
    + intros p Hp. rewrite Hkeep by (intros; apply Hp; set_solver).
      unfold σ1. rewrite lookup_insert_ne; [done|].
      intros Heq. apply (Hp k); [set_solver|congruence].
Qed.

Lemma NoDup_fmap_inj {A B : Type} (g : A -> B) (xs : list A) (x1 x2 : A) :
  NoDup (g <$> xs) -> x1 ∈ xs -> x2 ∈ xs -> g x1 = g x2 -> x1 = x2.
Proof.
  induction xs as [|x xs IH]; cbn; intros Hnd H1 H2 Heq.
  - by apply elem_of_nil in H1.
  - apply NoDup_cons in Hnd as [Hx Hnd].
    apply elem_of_cons in H1 as [->|H1]; apply elem_of_cons in H2 as [->|H2];
      [done| | |by apply IH].
    + exfalso. apply Hx. rewrite Heq. by apply list_elem_of_fmap_2.
    + exfalso. apply Hx. rewrite <- Heq. by apply list_elem_of_fmap_2.
Qed.

Lemma well_formed_spec (σ : store) :
  well_formed a σ = true ->
  covered σ (AdaBoostMH.D a) (AdaBoostMH.Stumper a) = true
  /\ (forall l, l ∈ DecisionStumper.labels (AdaBoostMH.Stumper a) ->
        exists p d, AdaBoostMH.D a !! l = Some p /\ σ !! p = Some d
          /\ (length (AdaBoostMH.Examples a) <= length (Distribution.P d))%nat)
  /\ (forall l1 l2, l1 ∈ DecisionStumper.labels (AdaBoostMH.Stumper a) ->
        l2 ∈ DecisionStumper.labels (AdaBoostMH.Stumper a) ->
        AdaBoostMH.D a !! l1 = AdaBoostMH.D a !! l2 -> l1 = l2).
Proof.
  unfold well_formed. rewrite !andb_true_iff, forallb_forall.
  intros [[Hcov Hall] Hnd]. apply bool_decide_eq_true in Hnd.
  split; [done|]. split.
  - intros l Hl. specialize (Hall l).
    rewrite <- list_elem_of_In, elem_of_elements in Hall. specialize (Hall Hl).
    unfold dist_of in Hall.
    destruct (AdaBoostMH.D a !! l) as [p|]; cbn in Hall; [|done].
    destruct (σ !! p) as [d|] eqn:Hd; [|done].
    exists p, d. split; [done|]. split; [done|]. by apply Nat.leb_le.
  - intros l1 l2 H1 H2.
    apply (NoDup_fmap_inj _ _ l1 l2 Hnd); by apply elem_of_elements.
Qed.

(** One round, with the new store described by [scaled]. *)
Lemma Round_run (σ : store) :
  well_formed a σ = true ->
  DecisionStumper.NewStump σ (AdaBoostMH.Stumper a) (AdaBoostMH.D a) = Done h ->
  exists σ',
    AdaBoostMH.Round a σ
    = Done ({| AdaBoostMH.Examples := AdaBoostMH.Examples a;
               AdaBoostMH.Stumper := AdaBoostMH.Stumper a;
               AdaBoostMH.D := AdaBoostMH.D a;
               AdaBoostMH.H := AdaBoostMH.H a ++ [h] |}, σ')
    /\ (forall l p d,
          l ∈ DecisionStumper.labels (AdaBoostMH.Stumper a) ->
          AdaBoostMH.D a !! l = Some p -> σ !! p = Some d ->
          σ' !! p = Some {| Distribution.P :=
                              scaled (factor l) (AdaBoostMH.Examples a)
                                (Distribution.P d) |})
    /\ (forall p, (forall l, l ∈ DecisionStumper.labels (AdaBoostMH.Stumper a) ->
                             AdaBoostMH.D a !! l <> Some p) ->
                  σ' !! p = σ !! p).
Proof.
  intros Hwf Hstump. apply well_formed_spec in Hwf as (_ & Hcov & Hinj).
  destruct (reweigh_loop
              (range_keys (DecisionStumper.labels (AdaBoostMH.Stumper a))) σ)
    as (σ' & Hloop & Hupd & Hkeep).
  { apply range_keys_NoDup. }
  { intros l Hl. apply Hcov. by apply range_keys_elem. }
  { intros l1 l2 H1 H2. apply Hinj; by apply range_keys_elem. }
  exists σ'. split; [|split].
  - unfold AdaBoostMH.Round. rewrite Hstump. cbn. by rewrite Hloop.
  - intros l p d Hl Hp Hd. apply (Hupd l p d); [by apply range_keys_elem|done|done].
  - intros p Hp. apply Hkeep. intros l Hl. apply Hp. by apply range_keys_elem.
Qed.

(** C6 (as amended). From a well-formed state, a round whose stump [h] has
    a feature returns normally and
    - leaves the examples, the stumper and the map [D] as they are (the
      distributions are updated in place, at the same locations) and
      appends [h], and only [h], at the end of the ensemble;
    - for every known label [l] and every training example [i], replaces
      the weight [D_l[i]] by [D_l[i] * (exp(y * h(example_i, l)) / zt)],
      with [y = hasLabel(example_i, l)] and [h(..)] the stump's [Predict];
    - changes nothing else in the store. *)
Theorem Round_reweights_and_appends (σ : store) :
  well_formed a σ = true ->
  DecisionStumper.NewStump σ (AdaBoostMH.Stumper a) (AdaBoostMH.D a) = Done h ->
  exists σ',
    AdaBoostMH.Round a σ
    = Done ({| AdaBoostMH.Examples := AdaBoostMH.Examples a;
               AdaBoostMH.Stumper := AdaBoostMH.Stumper a;
               AdaBoostMH.D := AdaBoostMH.D a;
               AdaBoostMH.H := AdaBoostMH.H a ++ [h] |}, σ')
    /\ (forall l p d,
          l ∈ DecisionStumper.labels (AdaBoostMH.Stumper a) ->
          AdaBoostMH.D a !! l = Some p -> σ !! p = Some d ->
          exists d', σ' !! p = Some d'
            /\ length (Distribution.P d') = length (Distribution.P d)
            /\ (forall i e x,
                  AdaBoostMH.Examples a !! i = Some e ->
                  Distribution.P d !! i = Some x ->
                  exists y, DecisionStump.Predict h e l = Done y
                    /\ Distribution.P d' !! i
                       = Some (x * (Exp (hasLabel e l * y)
                                    / DecisionStump.zt h))%float)
            /\ (forall i, (length (AdaBoostMH.Examples a) <= i)%nat ->
                  Distribution.P d' !! i = Distribution.P d !! i))
    /\ (forall p, (forall l, l ∈ DecisionStumper.labels (AdaBoostMH.Stumper a) ->
                             AdaBoostMH.D a !! l <> Some p) ->
                  σ' !! p = σ !! p).
Proof.
  intros Hwf Hstump.
  destruct (Round_run σ Hwf Hstump) as (σ' & Hround & Hupd & Hkeep).
  exists σ'. split; [exact Hround|]. split; [|exact Hkeep].
  intros l p d Hl Hp Hd. eexists. split; [by apply (Hupd l p d)|].
  cbn. split; [apply scaled_length|]. split.
  - intros i e x He Hx. eexists. split.
    { apply (stump_Predict_Some h f e l Hfeature). }
    by rewrite (scaled_lookup _ _ _ i e x He Hx).
  - intros i Hi. by apply scaled_beyond.
Qed.

Lemma lengths_checked_mono (n : nat) (D : gmap Label loc) (σ σ' : store)
  (ls : list Label) :
  (forall l d, l ∈ ls -> dist_of σ D l = Some d ->
     exists d', dist_of σ' D l = Some d'
                /\ length (Distribution.P d') = length (Distribution.P d)) ->
  forallb (fun l => match dist_of σ D l with
                    | Some d => (n <=? length (Distribution.P d))%nat
                    | None => false
                    end) ls = true ->
  forallb (fun l => match dist_of σ' D l with
                    | Some d => (n <=? length (Distribution.P d))%nat
                    | None => false
                    end) ls = true.
Proof.
  rewrite !forallb_forall. intros Hmono Hall l Hin. specialize (Hall l Hin).
  apply list_elem_of_In in Hin.
  destruct (dist_of σ D l) as [d|] eqn:Hd; [|done].
  by destruct (Hmono l d Hin Hd) as (d' & -> & ->).
Qed.

(** X11. Well-formedness is an invariant of [Round]: from a well-formed
    state, a round whose stump has a feature returns a well-formed state, so
    rounds can be chained. *)
Lemma Round_preserves_well_formed (σ : store) :
  well_formed a σ = true ->
  DecisionStumper.NewStump σ (AdaBoostMH.Stumper a) (AdaBoostMH.D a) = Done h ->
  exists a' σ', AdaBoostMH.Round a σ = Done (a', σ')
                /\ well_formed a' σ' = true.
Proof.
  intros Hwf Hstump.
  destruct (Round_run σ Hwf Hstump) as (σ' & -> & Hupd & _).
  eexists _, σ'. split; [reflexivity|].
  assert (Hmono : forall l d,
            l ∈ elements (DecisionStumper.labels (AdaBoostMH.Stumper a)) ->
            dist_of σ (AdaBoostMH.D a) l = Some d ->
            exists d', dist_of σ' (AdaBoostMH.D a) l = Some d'
                       /\ length (Distribution.P d') = length (Distribution.P d)).
  { intros l d Hl Hd. apply elem_of_elements in Hl. unfold dist_of in *.
    destruct (AdaBoostMH.D a !! l) as [p|] eqn:Hp; cbn in *; [|done].
    rewrite (Hupd l p d Hl Hp Hd). eexists. split; [done|]. apply scaled_length. }
  unfold well_formed, covered in *. cbn.
  rewrite !andb_true_iff in *. destruct Hwf as [[H1 H2] H3].
  split; [split|exact H3]; eapply lengths_checked_mono; eauto.
Qed.
End Round_facts.

Lemma Round_demo :
  exists σ',
    AdaBoostMH.Round (GM := linear_math) demo_boost demo_store
    = Done ({| AdaBoostMH.Examples := [d1; d2; d3; d4];
               AdaBoostMH.Stumper := demo_stumper;
               AdaBoostMH.D := demo_D;
               AdaBoostMH.H :=
                 [ {| DecisionStump.Feature := Some "g"%string;
                      DecisionStump.c := {["A"%string := 0.25%float]};
                      DecisionStump.zt := 0.5%float |} ] |}, σ')
    /\ σ' !! 1%positive
       = Some {| Distribution.P := [0.625; 1; 0.625; 1]%float |}.
Proof.
  destruct (Round_reweights_and_appends (GM := linear_math) demo_boost
              {| DecisionStump.Feature := Some "g"%string;
                 DecisionStump.c := {["A"%string := 0.25%float]};
                 DecisionStump.zt := 0.5%float |}
              "g"%string eq_refl demo_store)
    as (σ' & Hround & _); [vm_compute; reflexivity|vm_compute; reflexivity|].
  exists σ'. split; [exact Hround|].
  assert (Hrun : exists a', AdaBoostMH.Round (GM := linear_math) demo_boost demo_store
                 = Done (a', {[1%positive :=
                               {| Distribution.P := [0.625; 1; 0.625; 1]%float |}]}))
    by (eexists; vm_compute; reflexivity).
  destruct Hrun as [a' Hrun]. rewrite Hrun in Hround.
  injection Hround as _ <-. reflexivity.
Defined.

(** C6 (counterexample). Not every call of [Round] reweights and appends.
    - On [sharp_boost], the state the constructors build from two examples,
      one feature and one label, the first round divides by [zt = 0] and
      leaves the weights infinite; in the second round the only score is
      NaN, no feature is selected, and [Round] panics in [h.Predict]
      without appending anything.
    - From that state with infinite weights the panic does not depend on
      what [math.Log] and [math.Exp] compute, nor on the ensemble.
    - On a stumper without features, which the constructors accept, the
      first round panics in the same way. *)
Lemma Round_panics_without_stump_feature :
  (exists a1,
     AdaBoostMH.Round (GM := linear_math) sharp_boost sharp_store
     = Done (a1, spoiled_store)
     /\ well_formed a1 spoiled_store = true
     /\ AdaBoostMH.Round (GM := linear_math) a1 spoiled_store
        = Fail NilDereference)
  /\ (forall (GM : GoMath) (H : list (DecisionStump.t string)),
        AdaBoostMH.Round
          {| AdaBoostMH.Examples := [d3; d4];
             AdaBoostMH.Stumper := sharp_stumper;
             AdaBoostMH.D := demo_D;
             AdaBoostMH.H := H |} spoiled_store
        = Fail NilDereference)
  /\ (NewDecisionStumper [] [d3; d4] = Done (AdaBoostMH.Stumper bare_boost)
      /\ NewAdaBoostMH ∅ [d3; d4] (AdaBoostMH.Stumper bare_boost)
         = Done (bare_boost, sharp_store)
      /\ forall GM : GoMath,
           AdaBoostMH.Round bare_boost sharp_store = Fail NilDereference).
Proof.
  split; [|split; [|split; [|split]]].
  - eexists. split; [vm_compute; reflexivity|].
    split; vm_compute; reflexivity.
  - intros GM H. vm_compute. reflexivity.
  - vm_compute. reflexivity.
  - vm_compute. reflexivity.
  - intros GM. vm_compute. reflexivity.
Qed.

(** ** [Evaluate] *)

Lemma wrap64_add_l (x y : Z) : wrap64 (wrap64 x + y) = wrap64 (x + y).
Proof.
  unfold wrap64.
  replace ((x + 2 ^ 63) mod 2 ^ 64 - 2 ^ 63 + y + 2 ^ 63)
    with ((x + 2 ^ 63) mod 2 ^ 64 + y) by lia.
  rewrite Zplus_mod_idemp_l. do 2 f_equal. lia.
Qed.

Section Evaluate_facts.
Context {E F : Type} {IE : Example E} {IF : Feature F E}.
Context {GO : GoMapOrder}.

(** X13. Before any round nothing is skipped: [Evaluate] counts every
    pair of a test example and a known label, whatever the labels of the
    examples, and returns their number (as a 64-bit [int]). *)
Lemma Evaluate_untrained (a : AdaBoostMH.t E F) (test : list E) :
  AdaBoostMH.H a = [] ->
  AdaBoostMH.Evaluate a test
  = Done (wrap64 (len test
                  * len (range_keys (DecisionStumper.labels (AdaBoostMH.Stumper a))))).
Proof.
  intros HH. unfold AdaBoostMH.Evaluate.
  set (ks := range_keys (DecisionStumper.labels (AdaBoostMH.Stumper a))).
  assert (Hinner : forall example (ls : list Label) n,
    foldM (fun dist label =>
             y ← AdaBoostMH.Predict a example label;
             if (0 <? y)%float && HasLabel example label then Done dist
             else Done (int_add dist 1)) (wrap64 n) ls
    = Done (wrap64 (n + len ls))).
  { intros example ls. induction ls as [|l ls IH]; intros n; cbn.
    - unfold len. cbn. by rewrite Z.add_0_r.
    - rewrite (Predict_empty a example l HH). cbn.
      unfold int_add. rewrite wrap64_add_l, IH. do 2 f_equal.
      unfold len. cbn [length]. lia. }
  assert (Houter : forall (es : list E) n,
    foldM (fun dist example =>
             foldM (fun dist label =>
                      y ← AdaBoostMH.Predict a example label;
                      if (0 <? y)%float && HasLabel example label then Done dist
                      else Done (int_add dist 1)) dist ks) (wrap64 n) es
    = Done (wrap64 (n + len es * len ks))).
  { induction es as [|e es IH]; intros n; cbn [foldM].
    - unfold len at 1. cbn. by rewrite Z.add_0_r.
    - rewrite Hinner. cbn. rewrite IH. do 2 f_equal.
      unfold len. cbn [length]. lia. }
  apply (Houter test 0).
Qed.
End Evaluate_facts.

(** C1 (defect). [Evaluate] skips a pair only when the prediction is
    positive and the example carries the label; a label that is rightly
    predicted absent is counted as a mismatch.  On the untrained ensemble
    and the untagged document [d4], the pair ([d4], [A]) is predicted absent
    and is absent: the Hamming distance is 0, and [Evaluate] returns 1. *)
Theorem Evaluate_counts_true_negatives :
  AdaBoostMH.Predict sharp_boost d4 "A"%string = Done 0%float
  /\ HasLabel d4 "A"%string = false
  /\ Hamming sharp_boost [d4] = Done 0
  /\ AdaBoostMH.Evaluate sharp_boost [d4] = Done 1.
Proof. repeat split; vm_compute; reflexivity. Qed.

(** ** Division by [zt] *)

(** The state [sharp_boost] is the one that the constructors build. *)
Example sharp_is_constructed :
  NewDecisionStumper ["g"%string] [d3; d4] = Done sharp_stumper
  /\ NewAdaBoostMH ∅ [d3; d4] sharp_stumper = Done (sharp_boost, sharp_store).
Proof. split; vm_compute; reflexivity. Qed.

(** C5 (defect). The examples, features and labels of [sharp_boost] are
    not empty, and its state is well formed.  The feature [g] separates the
    label perfectly, so [W-[g,A] = 0], every score is 0 and [zt = 0]: the
    first round divides both weights by zero, whatever [math.Log] and
    [math.Exp] compute. *)
Theorem Round_divides_by_zero (GM : GoMath) :
  well_formed sharp_boost sharp_store = true
  /\ Wminus sharp_store demo_D sharp_stumper "g"%string "A"%string = 0%float
  /\ DecisionStumper.NewStump sharp_store sharp_stumper demo_D
     = Done {| DecisionStump.Feature := Some "g"%string;
               DecisionStump.c := {["A"%string := (0.5 * Log (1.5 / 1))%float]};
               DecisionStump.zt := 0%float |}
  /\ exists a',
       AdaBoostMH.Round sharp_boost sharp_store
       = Done (a', {[1%positive :=
                       {| Distribution.P :=
                            [ 0.5 * (Exp (1 * (0.5 * Log (1.5 / 1))) / 0);
                              0.5 * (Exp (-1 * -1) / 0) ]%float |}]}).
Proof.
  split; [vm_compute; reflexivity|]. split; [vm_compute; reflexivity|].
  split; [vm_compute; reflexivity|]. eexists. vm_compute. reflexivity.
Qed.

(** ** The state after construction *)

Section NewAdaBoostMH_facts.
Context {E F : Type} {GO : GoMapOrder}.
Variables (es : list E) (learner : DecisionStumper.t E F).

(** The distribution that [UniformDistribution(len(es))] returns. *)
Definition uniform : Distribution.t :=
  {| Distribution.P :=
       replicate (length es)
         (1 / PrimFloat.of_uint63 (Uint63.of_Z (len es)))%float |}.

Lemma UniformDistribution_uniform : UniformDistribution (len es) = Done uniform.
Proof.
  unfold UniformDistribution, uniform, len.
  destruct (Z.ltb_spec (Z.of_nat (length es)) 0) as [|_]; [lia|].
  by rewrite Nat2Z.id.
Qed.

(** What the allocation loop of [NewAdaBoostMH] maintains for the labels
    [seen] so far, from the store [σ0]: each has a fresh uniform
    distribution of its own, no other label has one, and the store only
    grew. *)
Definition allocated (σ0 : store) (seen : list Label) (dist : gmap Label loc)
  (σ : store) : Prop :=
  (forall l, l ∈ seen -> exists p, dist !! l = Some p /\ σ0 !! p = None
                                   /\ σ !! p = Some uniform)
  /\ (forall l, l ∉ seen -> dist !! l = None)
  /\ NoDup ((fun l => dist !! l) <$> seen)
  /\ σ0 ⊆ σ.

Lemma alloc_loop (σ0 : store) (ls seen : list Label) (dist : gmap Label loc)
  (σ : store) :
  NoDup (seen ++ ls) -> allocated σ0 seen dist σ ->
  exists dist' σ',
    foldM (fun '(dist, σ) label =>
             d ← UniformDistribution (len es);
             let '(p, σ) := alloc σ d in
             Done (<[label := p]> dist, σ)) (dist, σ) ls = Done (dist', σ')
    /\ allocated σ0 (seen ++ ls) dist' σ'.
Proof.
  match goal with |- context [foldM ?b] => set (body := b) end.
  revert seen dist σ. induction ls as [|k ls IH]; intros seen dist σ Hnd Hal.
  - exists dist, σ. split; [done|]. by rewrite app_nil_r.
  - set (p := fresh (dom σ)).
    assert (Hstep : body (dist, σ) k = Done (<[k := p]> dist, <[p := uniform]> σ)).
    { unfold body. by rewrite UniformDistribution_uniform. }
    assert (Hp : σ !! p = None).
    { apply not_elem_of_dom. apply is_fresh. }
    assert (Hk : k ∉ seen).
    { apply NoDup_app in Hnd as (_ & Hdisj & _). intros Hin.
      apply (Hdisj k Hin). set_solver. }
    destruct Hal as (Hall & Hrest & Hinj & Hsub).
    assert (Hsame : (fun l => <[k := p]> dist !! l) <$> seen
                    = (fun l => dist !! l) <$> seen).
    { apply list_fmap_ext. intros i l Hl. apply lookup_insert_ne.
      intros ->. apply Hk. by eapply list_elem_of_lookup_2. }
    destruct (IH (seen ++ [k]) (<[k := p]> dist) (<[p := uniform]> σ))
      as (dist' & σ' & Hrun & Hal').
    { by rewrite <- app_assoc. }
    { split; [|split; [|split]].
      - intros l Hl. apply elem_of_app in Hl as [Hl|Hl].
        + destruct (Hall l Hl) as (p' & Hp' & Hnew & Hd').
          exists p'. split; [|split; [done|]].
          * rewrite lookup_insert_ne; [done|]. by intros ->.
          * rewrite lookup_insert_ne; [done|]. intros ->. congruence.
        + apply list_elem_of_singleton in Hl as ->.
          exists p. rewrite !lookup_insert_eq. split; [done|]. split; [|done].
          destruct (σ0 !! p) as [d0|] eqn:H0; [|done].
          by rewrite (lookup_weaken _ _ _ _ H0 Hsub) in Hp.
      - intros l Hl. rewrite lookup_insert_ne; [apply Hrest|]; set_solver.
      - rewrite fmap_app, Hsame. cbn. rewrite lookup_insert_eq.
        apply NoDup_app. split; [done|]. split; [|apply NoDup_singleton].
        intros x Hx Hx'. apply list_elem_of_singleton in Hx' as ->.
        apply list_elem_of_fmap in Hx as (l & Heq & Hl).
        destruct (Hall l Hl) as (p' & Hp' & _ & Hd'). congruence.
      - etrans; [exact Hsub|]. by apply insert_subseteq. }
    exists dist', σ'. split; [|by rewrite <- app_assoc in Hal'].
    cbn [foldM]. rewrite Hstep. exact Hrun.
Qed.

Lemma NewAdaBoostMH_allocated (σ : store) :
  exists dist σ',
    NewAdaBoostMH σ es learner
    = Done ({| AdaBoostMH.Examples := es; AdaBoostMH.Stumper := learner;
               AdaBoostMH.D := dist; AdaBoostMH.H := [] |}, σ')
    /\ allocated σ (range_keys (DecisionStumper.labels learner)) dist σ'.
Proof.
  unfold NewAdaBoostMH.
  destruct (alloc_loop σ (range_keys (DecisionStumper.labels learner)) [] ∅ σ)
    as (dist & σ' & -> & Hal).
  { apply range_keys_NoDup. }
  { split; [|split; [|split]]; [|done|constructor|done].
    intros l Hl. by apply elem_of_nil in Hl. }
  by exists dist, σ'.
Qed.

(** X12. [NewAdaBoostMH] sets up a well-formed state with an empty
    ensemble, whatever the store it starts from, when it is given at least
    as many examples as its stumper holds (in practice the same slice). *)
Lemma NewAdaBoostMH_well_formed (σ : store) :
  (length (DecisionStumper.examples learner) <= length es)%nat ->
  exists a σ', NewAdaBoostMH σ es learner = Done (a, σ')
    /\ AdaBoostMH.Examples a = es /\ AdaBoostMH.Stumper a = learner
    /\ AdaBoostMH.H a = []
    /\ well_formed a σ' = true.
Proof.
  intros Hlen.
  destruct (NewAdaBoostMH_allocated σ) as (dist & σ' & -> & Hall & _ & Hinj & _).
  eexists _, σ'. split; [reflexivity|]. cbn. do 3 (split; [done|]).
  assert (Hcheck : forall n, (n <= length es)%nat ->
    forallb (fun l => match dist_of σ' dist l with
                      | Some d => (n <=? length (Distribution.P d))%nat
                      | None => false
                      end) (elements (DecisionStumper.labels learner)) = true).
  { intros n Hn. apply forallb_forall. intros l Hl.
    apply list_elem_of_In, elem_of_elements, range_keys_elem in Hl.
    destruct (Hall l Hl) as (p & Hp & _ & Hd).
    unfold dist_of. rewrite Hp. cbn. rewrite Hd. cbn.
    rewrite length_replicate. by apply Nat.leb_le. }
  unfold well_formed, covered. cbn. rewrite !andb_true_iff.
  split; [split; by apply Hcheck|]. apply bool_decide_eq_true.
  by rewrite <- (range_keys_perm (DecisionStumper.labels learner)).
Qed.

(** X19. [NewAdaBoostMH] gives every known label, and no other label, a
    distribution of its own: a location that was free and that no other
    label shares, holding [len(es)] weights [1/len(es)]; what the store held
    before is still there. *)
Theorem NewAdaBoostMH_uniform (σ : store) :
  exists a σ', NewAdaBoostMH σ es learner = Done (a, σ')
    /\ (forall l, l ∈ DecisionStumper.labels learner ->
          exists p, AdaBoostMH.D a !! l = Some p /\ σ !! p = None
            /\ σ' !! p
               = Some {| Distribution.P :=
                           replicate (length es)
                             (1 / PrimFloat.of_uint63 (Uint63.of_Z (len es)))%float |})
    /\ (forall l1 l2 p, l1 ∈ DecisionStumper.labels learner ->
          l2 ∈ DecisionStumper.labels learner ->
          AdaBoostMH.D a !! l1 = Some p -> AdaBoostMH.D a !! l2 = Some p ->
          l1 = l2)
    /\ (forall l, l ∉ DecisionStumper.labels learner -> AdaBoostMH.D a !! l = None)
    /\ (forall p d, σ !! p = Some d -> σ' !! p = Some d).
Proof.
  destruct (NewAdaBoostMH_allocated σ) as (dist & σ' & -> & Hall & Hrest & Hnd & Hsub).
  eexists _, σ'. split; [reflexivity|]. cbn. split; [|split; [|split]].
  - intros l Hl. apply Hall. by apply range_keys_elem.
  - intros l1 l2 p H1 H2 Hp1 Hp2.
    apply (NoDup_fmap_inj (fun l => dist !! l)
             (range_keys (DecisionStumper.labels learner)) l1 l2 Hnd);
      [by apply range_keys_elem|by apply range_keys_elem|congruence].
  - intros l Hl. apply Hrest. by rewrite range_keys_elem.
  - intros p d Hd. by apply (lookup_weaken _ _ _ _ Hd Hsub).
Qed.
End NewAdaBoostMH_facts.

(** * Further properties of the code *)

(** ** [Sample] *)

Lemma Sample_never_reports_demo :
  Distribution.Sample 5 {| Distribution.P := [0.25; 0.25]%float |} 0.75
  <> Fail InvariantViolation.
Proof. apply Sample_never_reports. vm_compute. reflexivity. Defined.

Lemma Sample_hangs_beyond_first_bucket_demo :
  Distribution.Sample 1000 {| Distribution.P := [0.25; 0.25; 0.5]%float |} 0.25
  = OutOfFuel.
Proof.
  apply (Sample_hangs_beyond_first_bucket _ _ 0.25%float);
    vm_compute; reflexivity.
Defined.

(** X2. Whenever [Sample] returns, it returns index 0, and the draw is
    strictly below the first cumulative value: no other index is ever
    produced. *)
Theorem Sample_returns_first_bucket_only (fuel : nat) (dist : Distribution.t)
  (draw : float64) (i : Z) :
  len (Distribution.P dist) < 2 ^ 63 ->
  Distribution.Sample fuel dist draw = Done i ->
  i = 0 /\ exists c0, Distribution.cumulative_of dist !! 0%nat = Some c0
                      /\ (draw <? c0)%float = true.
Proof.
  intros Hlen Hi.
  destruct (Sample_outcomes fuel dist draw Hlen) as [H|[[H Hc]|[_ H]]];
    rewrite H in Hi; try discriminate.
  injection Hi as <-. by split.
Qed.

Lemma Sample_returns_first_bucket_only_demo :
  0 = 0 /\ exists c0,
    Distribution.cumulative_of {| Distribution.P := [0.5; 0.5]%float |} !! 0%nat
    = Some c0 /\ (0.25 <? c0)%float = true.
Proof.
  apply (Sample_returns_first_bucket_only 3
           {| Distribution.P := [0.5; 0.5]%float |} 0.25%float 0);
    vm_compute; reflexivity.
Defined.

(** Going left only: when the draw is below every cumulative value, each
    call halves the range [0, hi) until it is empty. *)
Lemma search_left (s : float64) (cumulative : list float64) :
  cumulative <> [] -> len cumulative < 2 ^ 63 ->
  Forall (fun c => (s <? c)%float = true) cumulative ->
  forall fuel hi, 0 <= hi <= len cumulative -> (Z.to_nat hi < fuel)%nat ->
    search fuel s cumulative 0 hi = Done 0.
Proof.
  intros Hne Hlen Hall. induction fuel as [|fuel IH]; intros hi Hhi Hfuel; [lia|].
  cbn [search]. destruct (Z.eqb_spec 0 hi) as [<-|Hpos].
  - destruct cumulative as [|c0 cs]; [done|].
    apply Forall_cons in Hall as [Hc0 _].
    change (index (c0 :: cs) 0) with (Done (A := float64) c0). cbn.
    by rewrite (ltb_leb _ _ Hc0).
  - destruct (mid_range 0 hi ltac:(lia) ltac:(lia)) as [Hmid Hbounds].
    cbn zeta in Hmid, Hbounds.
    set (mid := int_add 0 (int_quot (int_sub hi 0) 2)) in *.
    destruct (lookup_lt_is_Some_2 cumulative (Z.to_nat mid)) as [cm Hcm].
    { unfold len in Hhi. lia. }
    assert (Hidx : index cumulative mid = Done cm).
    { unfold index. destruct (Z.ltb_spec mid 0); [lia|]. by rewrite Hcm. }
    rewrite Hidx. cbn.
    rewrite Forall_lookup in Hall. rewrite (Hall _ _ Hcm).
    clearbody mid. apply IH; lia.
Qed.

(** X4. When the draw is below every cumulative value (as a draw in the
    first bucket of a non-decreasing array is), [Sample] returns 0 as soon
    as the fuel exceeds the number of weights. *)
Theorem Sample_first_bucket (fuel : nat) (dist : Distribution.t) (draw : float64) :
  Distribution.P dist <> [] ->
  len (Distribution.P dist) < 2 ^ 63 ->
  Forall (fun c => (draw <? c)%float = true) (Distribution.cumulative_of dist) ->
  (length (Distribution.P dist) < fuel)%nat ->
  Distribution.Sample fuel dist draw = Done 0.
Proof.
  intros Hne Hlen Hall Hfuel. unfold Distribution.Sample. cbn zeta.
  assert (Hl : len (Distribution.cumulative_of dist) = len (Distribution.P dist)).
  { unfold len, Distribution.cumulative_of. by rewrite length_running. }
  apply search_left; [|lia|done|unfold len; lia|unfold len in *; lia].
  intros Hnil. rewrite Hnil in Hl. unfold len in Hl.
  destruct (Distribution.P dist); [done|cbn in Hl; lia].
Qed.

Lemma Sample_first_bucket_demo :
  Distribution.Sample 5 {| Distribution.P := [0.25; 0.25; 0.25; 0.25]%float |} 0.125
  = Done 0.
Proof.
  apply Sample_first_bucket; [discriminate|vm_compute; reflexivity| |cbn; lia].
  repeat constructor.
Defined.

(** X5. On a distribution without weights (as [UniformDistribution(0)]
    builds), [Sample] faults on [cumulative[0]] with an index out of range;
    it neither returns nor raises the panic of [search]. *)
Theorem Sample_empty_distribution (fuel : nat) (draw : float64) :
  UniformDistribution 0 = Done {| Distribution.P := [] |}
  /\ forall dist, Distribution.P dist = [] ->
       Distribution.Sample (S fuel) dist draw = Fail IndexOutOfRange.
Proof.
  split; [reflexivity|]. intros [ps] Hps. cbn in Hps. subst ps. reflexivity.
Qed.

(** ** The order of binary64 *)

Lemma SFltb_trans (x y z : spec_float) :
  SFltb x y = true -> SFltb y z = true -> SFltb x z = true.
Proof.
  unfold SFltb, SFcompare.
  destruct x as [sx|sx| |sx mx ex], y as [sy|sy| |sy my ey],
    z as [sz|sz| |sz mz ez];
    repeat match goal with s : bool |- _ => destruct s end;
    try discriminate; try reflexivity.
  all: change (Pos.compare_cont Eq) with Pos.compare.
  all: repeat match goal with
         | |- context [Z.compare ?a ?b] =>
           destruct (Z.compare_spec a b)
         | |- context [Pos.compare ?a ?b] =>
           destruct (Pos.compare_spec a b)
         end; cbn; try discriminate; try reflexivity; intros _ _; exfalso; lia.
Qed.

Lemma SFltb_irrefl (x : spec_float) : SFltb x x = false.
Proof.
  unfold SFltb, SFcompare. destruct x as [[]|[]| |[] m e]; try reflexivity.
  all: rewrite Z.compare_refl; change (Pos.compare_cont Eq) with Pos.compare;
    by rewrite Pos.compare_refl.
Qed.

Lemma ltb_trans (x y z : float64) :
  (x <? y)%float = true -> (y <? z)%float = true -> (x <? z)%float = true.
Proof. rewrite !ltb_spec. apply SFltb_trans. Qed.

Lemma ltb_irrefl (x : float64) : (x <? x)%float = false.
Proof. rewrite ltb_spec. apply SFltb_irrefl. Qed.

(** What is not below [m] is not below anything below [m]. *)
Lemma ltb_false_below (a m m' : float64) :
  (a <? m)%float = false -> (m' <? m)%float = true -> (a <? m')%float = false.
Proof.
  intros Ha Hm. destruct (a <? m')%float eqn:Ham; [|done].
  by rewrite (ltb_trans _ _ _ Ham Hm) in Ha.
Qed.

(** ** [NewStump]: the selected feature *)

Section NewStump_selection.
Context {E F : Type} {IE : Example E} {IF : Feature F E}.
Context {EqF : EqDecision F} {CntF : Countable F}.
Context {GM : GoMath} {GO : GoMapOrder}.
Variables (σ : store) (ds : gmap Label loc) (stumper : DecisionStumper.t E F).

#[local] Abbreviation wmap := (gmap (DecisionStumper.key (F := F)) float64).

(** What the selection loop maintains after the features [seen]. *)
Definition least (w : wmap) (seen : list F) (fMin : option F) (zMin : float64)
  : Prop :=
  match fMin with
  | None => zMin = MaxFloat64
  | Some f => f ∈ seen /\ zMin = DecisionStumper.score stumper w f
              /\ (zMin <? MaxFloat64)%float = true
  end
  /\ forall f', f' ∈ seen ->
       (DecisionStumper.score stumper w f' <? zMin)%float = false.

Lemma select_least (w : wmap) (fs seen : list F) (fMin : option F)
  (zMin zt : float64) :
  least w seen fMin zMin ->
  exists fMin' zMin' zt',
    foldl (DecisionStumper.select stumper w) (fMin, zMin, zt) fs
    = (fMin', zMin', zt')
    /\ least w (seen ++ fs) fMin' zMin'.
Proof.
  revert seen fMin zMin zt.
  induction fs as [|f fs IH]; intros seen fMin zMin zt Hinv.
  - exists fMin, zMin, zt. by rewrite app_nil_r.
  - cbn [foldl]. unfold DecisionStumper.select at 2.
    set (s := DecisionStumper.score stumper w f).
    replace (seen ++ f :: fs) with ((seen ++ [f]) ++ fs) by by rewrite <- app_assoc.
    destruct Hinv as [Hmin Hall]. destruct (s <? zMin)%float eqn:Hlt.
    + apply IH. split.
      * split; [set_solver|]. split; [done|].
        destruct fMin as [g|]; [|by rewrite Hmin in Hlt].
        destruct Hmin as (_ & _ & Hz). by apply (ltb_trans _ _ _ Hlt).
      * intros f' Hf'. apply elem_of_app in Hf' as [Hf'|Hf'].
        -- by apply (ltb_false_below _ zMin); [apply Hall|].
        -- apply list_elem_of_singleton in Hf' as ->. apply ltb_irrefl.
    + apply IH. split.
      * destruct fMin as [g|]; [|done].
        destruct Hmin as (Hg & Hz & Hfin). split; [set_solver|done].
      * intros f' Hf'. apply elem_of_app in Hf' as [Hf'|Hf']; [by apply Hall|].
        by apply list_elem_of_singleton in Hf' as ->.
Qed.

Hypothesis Hcovered : covered σ ds stumper = true.

(** The run of [NewStump] with the outcome of its selection loop. *)
Lemma NewStump_selection :
  exists w fMin zMin zt0,
    (forall f, f ∈ DecisionStumper.features stumper ->
               DecisionStumper.score stumper w f = Zf σ ds stumper f)
    /\ least w (DecisionStumper.features stumper) fMin zMin
    /\ DecisionStumper.NewStump σ stumper ds
       = Done {| DecisionStump.Feature := fMin;
                 DecisionStump.c :=
                   foldl (fun c label =>
                            <[label := DecisionStumper.confidence w fMin label]> c)
                     ∅ (range_keys (DecisionStumper.labels stumper));
                 DecisionStump.zt := (zt0 * 2)%float |}.
Proof.
  destruct (W_spec σ ds stumper Hcovered (DecisionStumper.features stumper) ∅)
    as (w & Hrun & Hw).
  destruct (select_least w (DecisionStumper.features stumper) [] None MaxFloat64 0)
    as (fMin & zMin & zt0 & Hsel & Hleast).
  { split; [done|]. intros f' Hf'. by apply elem_of_nil in Hf'. }
  exists w, fMin, zMin, zt0. split; [|split; [exact Hleast|]].
  - intros f Hf. apply score_spec. intros b l Hl. rewrite Hw.
    by rewrite decide_True.
  - unfold DecisionStumper.NewStump. rewrite Hrun. cbn. by rewrite Hsel.
Qed.


(** X7. The stump has no feature exactly when no scanned feature has a
    score below [math.MaxFloat64] (no feature at all, or only infinite or
    NaN scores); one feature with a finite score is enough for the stump to
    have a feature. *)
Theorem NewStump_feature_iff_finite_score :
  exists h, DecisionStumper.NewStump σ stumper ds = Done h
    /\ (DecisionStump.Feature h = None
        <-> forall f, f ∈ DecisionStumper.features stumper ->
              (Zf σ ds stumper f <? MaxFloat64)%float = false).
Proof.
  destruct NewStump_selection as (w & fMin & zMin & zt0 & Hscore & Hleast & ->).
  eexists. split; [reflexivity|]. cbn. destruct Hleast as [Hmin Hall]. split.
  - intros ->. intros f Hf. rewrite <- (Hscore f Hf), <- Hmin. by apply Hall.
  - intros Hnone. destruct fMin as [g|]; [|done].
    destruct Hmin as (Hg & Hz & Hfin).
    rewrite Hz, (Hscore g Hg), (Hnone g Hg) in Hfin. done.
Qed.

(** X9. The confidence map of the new stump has no entry for a label that
    the stumper does not know; on such a label a stump whose feature tests
    true predicts 0, the zero value that the Go map reads. *)
Theorem NewStump_unknown_label :
  exists h, DecisionStumper.NewStump σ stumper ds = Done h
    /\ forall l, l ∉ DecisionStumper.labels stumper ->
         DecisionStump.c h !! l = None
         /\ forall f e, DecisionStump.Feature h = Some f -> Test f e = true ->
              DecisionStump.Predict h e l = Done 0%float.
Proof.
  destruct NewStump_selection as (w & fMin & zMin & zt0 & _ & _ & ->).
  eexists. split; [reflexivity|].
  cbn [DecisionStump.c DecisionStump.Feature]. intros l Hl.
  assert (Hc : foldl (fun c label =>
                        <[label := DecisionStumper.confidence w fMin label]> c)
                 (∅ : gmap Label float64)
                 (range_keys (DecisionStumper.labels stumper)) !! l = None).
  { rewrite (confidences_lookup σ ds stumper Hcovered), decide_False; [done|].
    by rewrite range_keys_elem. }
  split; [exact Hc|]. intros f e -> Ht.
  erewrite (stump_Predict_Some _ f e l); [|reflexivity].
  rewrite Ht. cbn [DecisionStump.c]. by rewrite Hc.
Qed.
End NewStump_selection.


Lemma NewStump_feature_iff_finite_score_demo :
  exists h, DecisionStumper.NewStump (GM := linear_math) demo_store demo_stumper demo_D
            = Done h
    /\ (DecisionStump.Feature h = None
        <-> forall f, f ∈ DecisionStumper.features demo_stumper ->
              (Zf demo_store demo_D demo_stumper f <? MaxFloat64)%float = false).
Proof.
  apply (NewStump_feature_iff_finite_score (GM := linear_math)
           demo_store demo_D demo_stumper).
  vm_compute. reflexivity.
Defined.

Lemma NewStump_unknown_label_demo :
  exists h, DecisionStumper.NewStump (GM := linear_math) demo_store demo_stumper demo_D
            = Done h
    /\ forall l, l ∉ DecisionStumper.labels demo_stumper ->
         DecisionStump.c h !! l = None
         /\ forall f e, DecisionStump.Feature h = Some f -> Test f e = true ->
              DecisionStump.Predict h e l = Done 0%float.
Proof.
  apply (NewStump_unknown_label (GM := linear_math) demo_store demo_D demo_stumper).
  vm_compute. reflexivity.
Defined.

(** ** [NewStump]: edge cases *)

(** A loop whose iterations return or fail with [e], and that has an
    iteration that always fails with [e], fails with [e]. *)
Definition mild {B : Type} (e : failure) (o : outcome B) : Prop :=
  (exists b, o = Done b) \/ o = Fail e.

Lemma foldM_mild {A B : Type} (body : B -> A -> outcome B) (e : failure)
  (l : list A) (acc : B) :
  (forall acc x, x ∈ l -> mild e (body acc x)) -> mild e (foldM body acc l).
Proof.
  revert acc. induction l as [|x l IH]; intros acc Hm; cbn; [left; by eexists|].
  destruct (Hm acc x) as [[acc' ->]| ->]; [set_solver| |by right].
  cbn. apply IH. intros ? ? ?. apply Hm. set_solver.
Qed.

Lemma foldM_fails {A B : Type} (body : B -> A -> outcome B) (e : failure)
  (l : list A) (acc : B) :
  (forall acc x, x ∈ l -> mild e (body acc x)) ->
  (exists x, x ∈ l /\ forall acc, body acc x = Fail e) ->
  foldM body acc l = Fail e.
Proof.
  revert acc. induction l as [|x l IH]; intros acc Hm (x0 & Hin & Hfail); cbn.
  - by apply elem_of_nil in Hin.
  - destruct (Hm acc x) as [[acc' Hd]| ->]; [set_solver| |done].
    rewrite Hd. cbn. apply IH; [intros ? ? ?; apply Hm; set_solver|].
    exists x0. split; [|done].
    apply elem_of_cons in Hin as [->|Hin]; [|done]. congruence.
Qed.

Lemma foldMi_mild {A B : Type} (body : B -> nat -> A -> outcome B) (e : failure)
  (l : list A) (i : nat) (acc : B) :
  (forall acc i x, x ∈ l -> mild e (body acc i x)) ->
  mild e (foldMi body i acc l).
Proof.
  revert i acc. induction l as [|x l IH]; intros i acc Hm; cbn; [left; by eexists|].
  destruct (Hm acc i x) as [[acc' ->]| ->]; [set_solver| |by right].
  cbn. apply IH. intros ? ? ? ?. apply Hm. set_solver.
Qed.

Lemma foldMi_fails {A B : Type} (body : B -> nat -> A -> outcome B) (e : failure)
  (l : list A) (i : nat) (acc : B) :
  (forall acc i x, x ∈ l -> mild e (body acc i x)) ->
  (exists x, x ∈ l /\ forall acc i, body acc i x = Fail e) ->
  foldMi body i acc l = Fail e.
Proof.
  revert i acc. induction l as [|x l IH]; intros i acc Hm (x0 & Hin & Hfail); cbn.
  - by apply elem_of_nil in Hin.
  - destruct (Hm acc i x) as [[acc' Hd]| ->]; [set_solver| |done].
    rewrite Hd. cbn. apply IH; [intros ? ? ? ?; apply Hm; set_solver|].
    exists x0. split; [|done].
    apply elem_of_cons in Hin as [->|Hin]; [|done]. congruence.
Qed.

Section NewStump_edges.
Context {E F : Type} {IE : Example E} {IF : Feature F E}.
Context {EqF : EqDecision F} {CntF : Countable F}.
Context {GM : GoMath} {GO : GoMapOrder}.
Variables (σ : store) (ds : gmap Label loc) (stumper : DecisionStumper.t E F).

Lemma range_keys_empty : range_keys ∅ = [].
Proof.
  apply Permutation_nil_r. rewrite (range_keys_perm ∅). by rewrite elements_empty.
Qed.

(** X8. Without any known label [NewStump] reads no weight and returns
    the first feature of the slice, with an empty confidence map and
    [zt = 0]. *)
Theorem NewStump_without_labels (f : F) (fs : list F) :
  DecisionStumper.labels stumper = ∅ ->
  DecisionStumper.features stumper = f :: fs ->
  DecisionStumper.NewStump σ stumper ds
  = Done {| DecisionStump.Feature := Some f;
            DecisionStump.c := ∅;
            DecisionStump.zt := 0%float |}.
Proof.
  intros Hlabels Hfeatures.
  assert (Hks : range_keys (DecisionStumper.labels stumper) = []).
  { rewrite Hlabels. apply range_keys_empty. }
  assert (Hscan : forall (g : F) (es : list E) (i : nat)
                         (w : gmap (DecisionStumper.key (F := F)) float64),
    foldMi (fun w i example =>
              if negb (Test g example) then Done w
              else foldM (DecisionStumper.accumulate σ ds g i example) w [])
      i w es = Done w).
  { intros g es. induction es as [|e es IH]; intros i w; cbn; [done|].
    destruct (Test g e); cbn; apply IH. }
  assert (Hweigh : forall g w, DecisionStumper.weigh σ stumper ds w g = Done w).
  { intros g w. unfold DecisionStumper.weigh. rewrite Hks. apply Hscan. }
  assert (Hw : forall gs w,
             foldM (DecisionStumper.weigh σ stumper ds) w gs = Done w).
  { induction gs as [|g gs IH]; intros w; cbn; [done|].
    rewrite Hweigh. cbn. apply IH. }
  assert (Hscore : forall w g, DecisionStumper.score stumper w g = 0%float).
  { intros w g. unfold DecisionStumper.score. by rewrite Hks. }
  assert (Hsel : forall w gs,
             foldl (DecisionStumper.select stumper w) (Some f, 0, 0)%float gs
             = (Some f, 0, 0)%float).
  { intros w. induction gs as [|g gs IH]; cbn [foldl]; [done|].
    unfold DecisionStumper.select at 2. rewrite Hscore.
    change (0 <? 0)%float with false. change (0 + 0)%float with 0%float.
    apply IH. }
  unfold DecisionStumper.NewStump. rewrite Hfeatures, Hw. cbn [mbind outcome_bind foldl].
  unfold DecisionStumper.select at 2. rewrite Hscore.
  change (0 <? MaxFloat64)%float with true. change (0 + 0)%float with 0%float.
  rewrite Hsel, Hks. reflexivity.
Qed.

(** X10. When no known label has a distribution (the map [ds] lacks
    them) and some feature tests true on some example, [NewStump] panics
    with a nil dereference at [ds[label].P]. *)
Theorem NewStump_without_distributions (f : F) (e : E) (l : Label) :
  (forall l, l ∈ DecisionStumper.labels stumper -> dist_of σ ds l = None) ->
  l ∈ DecisionStumper.labels stumper ->
  f ∈ DecisionStumper.features stumper ->
  e ∈ DecisionStumper.examples stumper ->
  Test f e = true ->
  DecisionStumper.NewStump σ stumper ds = Fail NilDereference.
Proof.
  intros Hnone Hl Hf He Ht.
  assert (Hacc : forall (g : F) (i : nat) (x : E)
                        (w : gmap (DecisionStumper.key (F := F)) float64) (k : Label),
             k ∈ range_keys (DecisionStumper.labels stumper) ->
             DecisionStumper.accumulate σ ds g i x w k = Fail NilDereference).
  { intros g i x w k Hk. apply range_keys_elem in Hk.
    unfold DecisionStumper.accumulate, load. by rewrite (Hnone k Hk). }
  assert (Hbody_mild : forall (g : F)
                              (w : gmap (DecisionStumper.key (F := F)) float64)
                              (i : nat) (x : E),
    mild NilDereference
      (if negb (Test g x) then Done w
       else foldM (DecisionStumper.accumulate σ ds g i x) w
              (range_keys (DecisionStumper.labels stumper)))).
  { intros g w i x. destruct (Test g x); cbn; [|left; by eexists].
    apply foldM_mild. intros acc k Hk. right. by apply Hacc. }
  assert (Hweigh_mild : forall w g,
             mild NilDereference (DecisionStumper.weigh σ stumper ds w g)).
  { intros w g. apply foldMi_mild. intros acc i x _. apply Hbody_mild. }
  unfold DecisionStumper.NewStump.
  rewrite (foldM_fails _ NilDereference); [done|by intros; apply Hweigh_mild|].
  exists f. split; [done|]. intros w. unfold DecisionStumper.weigh.
  apply foldMi_fails; [intros acc i x _; apply Hbody_mild|].
  exists e. split; [done|]. intros acc i. rewrite Ht. cbn.
  apply foldM_fails.
  - intros acc' k Hk. right. by apply Hacc.
  - exists l. split; [by apply range_keys_elem|]. intros acc'.
    apply Hacc. by apply range_keys_elem.
Qed.
End NewStump_edges.

Lemma NewStump_without_labels_demo :
  DecisionStumper.NewStump (GM := linear_math) demo_store
    {| DecisionStumper.labels := ∅;
       DecisionStumper.features := ["f"; "g"]%string;
       DecisionStumper.examples := [d2; d4] |} demo_D
  = Done {| DecisionStump.Feature := Some "f"%string;
            DecisionStump.c := ∅;
            DecisionStump.zt := 0%float |}.
Proof.
  apply (NewStump_without_labels (GM := linear_math) demo_store demo_D _
           "f"%string ["g"%string]); reflexivity.
Defined.

Lemma NewStump_without_distributions_demo :
  DecisionStumper.NewStump (GM := linear_math) demo_store demo_stumper ∅
  = Fail NilDereference.
Proof.
  apply (NewStump_without_distributions (GM := linear_math) demo_store ∅
           demo_stumper "f"%string d1 "A"%string).
  - intros l _. reflexivity.
  - vm_compute. reflexivity.
  - repeat constructor.
  - repeat constructor.
  - reflexivity.
Defined.

(** ** [Round]: failure, frame and composition *)

Lemma Round_preserves_well_formed_demo :
  exists a' σ', AdaBoostMH.Round (GM := linear_math) demo_boost demo_store
                = Done (a', σ')
                /\ well_formed a' σ' = true.
Proof.
  apply (Round_preserves_well_formed (GM := linear_math) demo_boost
           {| DecisionStump.Feature := Some "g"%string;
              DecisionStump.c := {["A"%string := 0.25%float]};
              DecisionStump.zt := 0.5%float |}
           "g"%string eq_refl demo_store); vm_compute; reflexivity.
Defined.

Lemma NewAdaBoostMH_well_formed_demo :
  exists a σ', NewAdaBoostMH ∅ [d1; d2; d3; d4] demo_stumper = Done (a, σ')
    /\ AdaBoostMH.Examples a = [d1; d2; d3; d4]
    /\ AdaBoostMH.Stumper a = demo_stumper
    /\ AdaBoostMH.H a = []
    /\ well_formed a σ' = true.
Proof.
  apply (NewAdaBoostMH_well_formed [d1; d2; d3; d4] demo_stumper ∅). cbn. lia.
Defined.

Lemma Evaluate_untrained_demo :
  AdaBoostMH.Evaluate demo_boost [d1; d2; d3; d4]
  = Done (wrap64 (len [d1; d2; d3; d4]
                  * len (range_keys (DecisionStumper.labels
                                       (AdaBoostMH.Stumper demo_boost))))).
Proof. apply Evaluate_untrained. reflexivity. Defined.

Lemma foldM_app {A B : Type} (body : B -> A -> outcome B) (l1 l2 : list A)
  (acc : B) :
  foldM body acc (l1 ++ l2) = foldM body acc l1 ≫= fun acc' => foldM body acc' l2.
Proof.
  revert acc. induction l1 as [|x l1 IH]; intros acc; cbn; [done|].
  destruct (body acc x); cbn; [apply IH|done|done].
Qed.

Section Round_more.
Context {E F : Type} {IE : Example E} {IF : Feature F E}.
Context {EqF : EqDecision F} {CntF : Countable F}.
Context {GM : GoMath} {GO : GoMapOrder}.
Variables (a : AdaBoostMH.t E F) (σ : store) (h : DecisionStump.t F).

(** X14. A stump without feature makes the round panic: from a
    well-formed state with at least one known label and one example, [Round]
    fails with a nil dereference (the call [d.Feature.Test(e)]) and returns
    nothing.  This is what happens when the stumper has no feature. *)
Theorem Round_nil_feature_panics (l : Label) :
  well_formed a σ = true ->
  DecisionStumper.NewStump σ (AdaBoostMH.Stumper a) (AdaBoostMH.D a) = Done h ->
  DecisionStump.Feature h = None ->
  l ∈ DecisionStumper.labels (AdaBoostMH.Stumper a) ->
  AdaBoostMH.Examples a <> [] ->
  AdaBoostMH.Round a σ = Fail NilDereference.
Proof.
  intros Hwf Hstump Hnil Hl Hes.
  apply well_formed_spec in Hwf as (_ & Hcov & _).
  unfold AdaBoostMH.Round. rewrite Hstump. cbn [mbind outcome_bind].
  destruct (range_keys (DecisionStumper.labels (AdaBoostMH.Stumper a)))
    as [|k ks] eqn:Hks.
  { apply range_keys_elem in Hl. rewrite Hks in Hl. by apply elem_of_nil in Hl. }
  assert (Hk : k ∈ DecisionStumper.labels (AdaBoostMH.Stumper a)).
  { apply range_keys_elem. rewrite Hks. set_solver. }
  destruct (Hcov k Hk) as (p & d & Hp & Hd & Hlen).
  destruct (AdaBoostMH.Examples a) as [|e es]; [done|]. cbn in Hlen.
  destruct (Distribution.P d) as [|x xs] eqn:HP; [cbn in Hlen; lia|].
  assert (Hstep : AdaBoostMH.update a h k σ 0 e = Fail NilDereference).
  { unfold AdaBoostMH.update, load, dist_of. rewrite Hp. cbn. rewrite Hd. cbn.
    rewrite HP. change (index (x :: xs) (Z.of_nat 0)) with (Done (A := float64) x).
    cbn. unfold DecisionStump.Predict. by rewrite Hnil. }
  cbn [foldM foldMi]. by rewrite Hstep.
Qed.

(** X15. Whatever the state, a round that returns has changed nothing but
    the ensemble and the weights: the examples, the stumper and the map [D]
    are the same, the ensemble is the old one followed by the stump that
    [NewStump] returned, and the store holds the same locations (nothing is
    allocated, nothing is dropped). *)
Theorem Round_frame (a' : AdaBoostMH.t E F) (σ' : store) :
  AdaBoostMH.Round a σ = Done (a', σ') ->
  exists h0,
    DecisionStumper.NewStump σ (AdaBoostMH.Stumper a) (AdaBoostMH.D a) = Done h0
    /\ a' = {| AdaBoostMH.Examples := AdaBoostMH.Examples a;
               AdaBoostMH.Stumper := AdaBoostMH.Stumper a;
               AdaBoostMH.D := AdaBoostMH.D a;
               AdaBoostMH.H := AdaBoostMH.H a ++ [h0] |}
    /\ dom σ' = dom σ.
Proof.
  unfold AdaBoostMH.Round.
  destruct (DecisionStumper.NewStump σ (AdaBoostMH.Stumper a) (AdaBoostMH.D a))
    as [h0| |]; cbn [mbind outcome_bind]; [|discriminate|discriminate].
  assert (Hupd : forall l i e σ0 σ1,
             AdaBoostMH.update a h0 l σ0 i e = Done σ1 -> dom σ1 = dom σ0).
  { intros l i e σ0 σ1. unfold AdaBoostMH.update, load, dist_of.
    destruct (AdaBoostMH.D a !! l) as [p|]; [|discriminate]. cbn.
    destruct (σ0 !! p) as [d|] eqn:Hd; [|discriminate]. cbn.
    destruct (index _ _); [|discriminate|discriminate]. cbn.
    destruct (DecisionStump.Predict _ _ _); [|discriminate|discriminate]. cbn.
    intros [= <-]. rewrite dom_insert_L.
    assert (p ∈ dom σ0) by (apply elem_of_dom; by eexists). set_solver. }
  assert (Hinner : forall l es i σ0 σ1,
             foldMi (AdaBoostMH.update a h0 l) i σ0 es = Done σ1 ->
             dom σ1 = dom σ0).
  { intros l es. induction es as [|e es IH]; intros i σ0 σ1; cbn.
    - by intros [= <-].
    - destruct (AdaBoostMH.update a h0 l σ0 i e) as [σm| |] eqn:Hm;
        cbn; [|discriminate|discriminate].
      intros Hrest. rewrite (IH _ _ _ Hrest). by apply (Hupd l i e). }
  assert (Houter : forall ls σ0 σ1,
             foldM (fun σ label =>
                      foldMi (AdaBoostMH.update a h0 label) 0%nat σ
                        (AdaBoostMH.Examples a)) σ0 ls = Done σ1 ->
             dom σ1 = dom σ0).
  { induction ls as [|k ls IH]; intros σ0 σ1; cbn [foldM].
    - by intros [= <-].
    - destruct (foldMi (AdaBoostMH.update a h0 k) 0%nat σ0 (AdaBoostMH.Examples a))
        as [σm| |] eqn:Hm; cbn [mbind outcome_bind]; [|discriminate|discriminate].
      intros Hrest. rewrite (IH _ _ Hrest). by apply (Hinner k _ _ _ _ Hm). }
  destruct (foldM _ σ _) as [σ1| |] eqn:Hloop; cbn [mbind outcome_bind];
    [|discriminate|discriminate].
  intros [= <- <-]. exists h0. split; [done|]. split; [done|].
  by apply (Houter _ _ _ Hloop).
Qed.

(** X16. After a round the prediction for any example and label is the
    previous prediction plus the prediction of the new stump: the stored
    confidence where its feature tests true, -1 elsewhere. *)
Theorem Predict_after_Round (f : F) (e : E) (l : Label) (s : float64) :
  well_formed a σ = true ->
  DecisionStumper.NewStump σ (AdaBoostMH.Stumper a) (AdaBoostMH.D a) = Done h ->
  DecisionStump.Feature h = Some f ->
  AdaBoostMH.Predict a e l = Done s ->
  exists a' σ',
    AdaBoostMH.Round a σ = Done (a', σ')
    /\ AdaBoostMH.Predict a' e l
       = Done (s + (if Test f e then default 0 (DecisionStump.c h !! l)
                    else -1))%float.
Proof.
  intros Hwf Hstump Hf Hs.
  destruct (Round_run a h f Hf σ Hwf Hstump) as (σ' & -> & _).
  eexists _, σ'. split; [reflexivity|].
  unfold AdaBoostMH.Predict in *. cbn [AdaBoostMH.H].
  rewrite foldM_app, Hs. cbn. by rewrite (stump_Predict_Some h f e l Hf).
Qed.
End Round_more.

Lemma Round_nil_feature_panics_demo :
  AdaBoostMH.Round (GM := linear_math) bare_boost sharp_store
  = Fail NilDereference.
Proof.
  apply (Round_nil_feature_panics (GM := linear_math) bare_boost sharp_store
           {| DecisionStump.Feature := None;
              DecisionStump.c := {["A"%string := 0%float]};
              DecisionStump.zt := 0%float |} "A"%string).
  - vm_compute. reflexivity.
  - vm_compute. reflexivity.
  - reflexivity.
  - vm_compute. reflexivity.
  - discriminate.
Defined.

Lemma Round_frame_demo :
  exists h0,
    DecisionStumper.NewStump (GM := linear_math) demo_store
      (AdaBoostMH.Stumper demo_boost) (AdaBoostMH.D demo_boost) = Done h0
    /\ {| AdaBoostMH.Examples := [d1; d2; d3; d4];
          AdaBoostMH.Stumper := demo_stumper;
          AdaBoostMH.D := demo_D;
          AdaBoostMH.H :=
            [ {| DecisionStump.Feature := Some "g"%string;
                 DecisionStump.c := {["A"%string := 0.25%float]};
                 DecisionStump.zt := 0.5%float |} ] |}
       = {| AdaBoostMH.Examples := AdaBoostMH.Examples demo_boost;
            AdaBoostMH.Stumper := AdaBoostMH.Stumper demo_boost;
            AdaBoostMH.D := AdaBoostMH.D demo_boost;
            AdaBoostMH.H := AdaBoostMH.H demo_boost ++ [h0] |}
    /\ dom ({[1%positive := {| Distribution.P := [0.625; 1; 0.625; 1]%float |}]}
              : store)
       = dom demo_store.
Proof.
  apply (Round_frame (GM := linear_math) demo_boost demo_store).
  vm_compute. reflexivity.
Defined.

Lemma Predict_after_Round_demo :
  exists a' σ',
    AdaBoostMH.Round (GM := linear_math) demo_boost demo_store = Done (a', σ')
    /\ AdaBoostMH.Predict a' d1 "A"%string = Done (0 + 0.25)%float.
Proof.
  destruct (Predict_after_Round (GM := linear_math) demo_boost demo_store
              {| DecisionStump.Feature := Some "g"%string;
                 DecisionStump.c := {["A"%string := 0.25%float]};
                 DecisionStump.zt := 0.5%float |}
              "g"%string d1 "A"%string 0%float)
    as (a' & σ' & Hround & Hpredict); [vm_compute; reflexivity..|].
  exists a', σ'. split; [exact Hround|]. rewrite Hpredict.
  vm_compute. reflexivity.
Defined.

(** ** [Predict] and [Evaluate] on any ensemble *)

Lemma sum_list_step (x : nat) (l : list nat) :
  sum_list (x :: l) = (x + sum_list l)%nat.
Proof. reflexivity. Qed.

Section ensemble.
Context {E F : Type} {IE : Example E} {IF : Feature F E}.
Context {GO : GoMapOrder}.

(** What a stump with a feature predicts. *)
Definition stump_value (h : DecisionStump.t F) (e : E) (l : Label) : float64 :=
  match DecisionStump.Feature h with
  | Some f => if Test f e then default 0%float (DecisionStump.c h !! l)
              else (-1)%float
  | None => 0%float
  end.

(** The margin: the predictions of the stumps, added up from 0 in the
    order of the ensemble. *)
Definition margin (a : AdaBoostMH.t E F) (e : E) (l : Label) : float64 :=
  foldl (fun s h => (s + stump_value h e l)%float) 0%float (AdaBoostMH.H a).

(** The pairs that [Evaluate] counts: all but those that are predicted
    present and are present. *)
Definition kept (a : AdaBoostMH.t E F) (e : E) (l : Label) : bool :=
  negb ((0 <? margin a e l)%float && HasLabel e l).

Definition counted_labels (a : AdaBoostMH.t E F) (e : E) : list Label :=
  List.filter (kept a e)
    (range_keys (DecisionStumper.labels (AdaBoostMH.Stumper a))).

Lemma predict_loop (e : E) (l : Label) (hs : list (DecisionStump.t F))
  (s : float64) :
  (Forall (fun h => is_Some (DecisionStump.Feature h)) hs ->
   foldM (fun sum h => y ← DecisionStump.Predict h e l; Done (sum + y)%float) s hs
   = Done (foldl (fun s h => (s + stump_value h e l)%float) s hs))
  /\ (Exists (fun h => DecisionStump.Feature h = None) hs ->
      foldM (fun sum h => y ← DecisionStump.Predict h e l; Done (sum + y)%float) s hs
      = Fail NilDereference).
Proof.
  revert s. induction hs as [|h hs IH]; intros s; cbn [foldM foldl].
  - split; [done|]. intros Hex. by apply Exists_nil in Hex.
  - destruct (DecisionStump.Feature h) as [f|] eqn:Hf.
    + rewrite (stump_Predict_Some h f e l Hf). cbn [mbind outcome_bind].
      assert (Hv : stump_value h e l
                   = if Test f e then default 0%float (DecisionStump.c h !! l)
                     else (-1)%float) by (unfold stump_value; by rewrite Hf).
      rewrite Hv. split.
      * intros Hall. apply Forall_cons in Hall as [_ Hall]. by apply IH.
      * intros Hex. apply Exists_cons in Hex as [Hex|Hex]; [congruence|].
        by apply IH.
    + assert (Hp : DecisionStump.Predict h e l = Fail NilDereference)
        by (unfold DecisionStump.Predict; by rewrite Hf).
      rewrite Hp. cbn. split; [|done].
      intros Hall. apply Forall_cons in Hall as [[f' Hf'] _]. congruence.
Qed.

Lemma Predict_margin (a : AdaBoostMH.t E F) (e : E) (l : Label) :
  Forall (fun h => is_Some (DecisionStump.Feature h)) (AdaBoostMH.H a) ->
  AdaBoostMH.Predict a e l = Done (margin a e l).
Proof. apply predict_loop. Qed.

(** X17. [Predict] returns the sum of the stumps' predictions when every
    stump of the ensemble has a feature, and panics with a nil dereference
    as soon as one has none; it does nothing else. *)
Theorem Predict_sum_or_panic (a : AdaBoostMH.t E F) (e : E) (l : Label) :
  (Forall (fun h => is_Some (DecisionStump.Feature h)) (AdaBoostMH.H a) ->
   AdaBoostMH.Predict a e l = Done (margin a e l))
  /\ (Exists (fun h => DecisionStump.Feature h = None) (AdaBoostMH.H a) ->
      AdaBoostMH.Predict a e l = Fail NilDereference).
Proof. apply predict_loop. Qed.

(** X18. On an ensemble whose stumps all have a feature, [Evaluate]
    returns the number of pairs of a test example and a known label other
    than those predicted present and present: a pair is skipped only when
    the margin is positive and the example carries the label.  The count
    never exceeds the number of pairs. *)
Theorem Evaluate_counts_all_but_true_positives (a : AdaBoostMH.t E F)
  (test : list E) :
  Forall (fun h => is_Some (DecisionStump.Feature h)) (AdaBoostMH.H a) ->
  AdaBoostMH.Evaluate a test
  = Done (wrap64 (Z.of_nat (sum_list ((fun e => length (counted_labels a e))
                                      <$> test))))
  /\ (sum_list ((fun e => length (counted_labels a e)) <$> test)
      <= length test
         * length (range_keys (DecisionStumper.labels (AdaBoostMH.Stumper a))))%nat.
Proof.
  intros Hall. unfold AdaBoostMH.Evaluate, counted_labels.
  set (ks := range_keys (DecisionStumper.labels (AdaBoostMH.Stumper a))).
  assert (Hinner : forall example (ls : list Label) n,
    foldM (fun dist label =>
             y ← AdaBoostMH.Predict a example label;
             if (0 <? y)%float && HasLabel example label then Done dist
             else Done (int_add dist 1)) (wrap64 n) ls
    = Done (wrap64 (n + Z.of_nat (length (List.filter (kept a example) ls))))).
  { intros example ls.
    match goal with |- context [foldM ?b] => set (body := b) end.
    induction ls as [|l ls IH]; intros n; cbn [foldM List.filter].
    - cbn. by rewrite Z.add_0_r.
    - assert (Hstep : body (wrap64 n) l
                      = Done (if kept a example l then wrap64 (n + 1)
                              else wrap64 n)).
      { unfold body, kept. rewrite (Predict_margin a example l Hall). cbn.
        destruct ((0 <? margin a example l)%float && HasLabel example l);
          cbn; [done|]. unfold int_add. by rewrite wrap64_add_l. }
      rewrite Hstep. destruct (kept a example l).
      + etrans; [apply IH|]. do 2 f_equal. cbn [length]. lia.
      + apply IH. }
  split.
  - assert (Houter : forall (es : list E) n,
      foldM (fun dist example =>
               foldM (fun dist label =>
                        y ← AdaBoostMH.Predict a example label;
                        if (0 <? y)%float && HasLabel example label then Done dist
                        else Done (int_add dist 1)) dist ks) (wrap64 n) es
      = Done (wrap64 (n + Z.of_nat
                            (sum_list ((fun e => length (List.filter (kept a e) ks))
                                       <$> es))))).
    { induction es as [|e es IH]; intros n; cbn [foldM].
      - cbn. by rewrite Z.add_0_r.
      - rewrite Hinner. cbn [mbind outcome_bind]. rewrite IH. do 2 f_equal.
        rewrite fmap_cons, sum_list_step. lia. }
    apply (Houter test 0).
  - induction test as [|e es IH]; [cbn; lia|].
    rewrite fmap_cons, sum_list_step. cbn [length].
    pose proof (List.filter_length_le (kept a e) ks). nia.
Qed.
End ensemble.

(** The demonstration state after its first round. *)
Definition trained_boost : AdaBoostMH.t doc string :=
  {| AdaBoostMH.Examples := [d1; d2; d3; d4];
     AdaBoostMH.Stumper := demo_stumper;
     AdaBoostMH.D := demo_D;
     AdaBoostMH.H :=
       [ {| DecisionStump.Feature := Some "g"%string;
            DecisionStump.c := {["A"%string := 0.25%float]};
            DecisionStump.zt := 0.5%float |} ] |}.

Lemma Evaluate_counts_demo :
  AdaBoostMH.Evaluate trained_boost [d1; d2; d3; d4] = Done 2
  /\ (2 <= 4)%nat.
Proof.
  destruct (Evaluate_counts_all_but_true_positives trained_boost [d1; d2; d3; d4])
    as [Hev Hle].
  - repeat constructor; by eexists.
  - split; [rewrite Hev; vm_compute; reflexivity|].
    lia.
Defined.

(** ** [Evaluate]: failure and empty label set *)

Section Evaluate_edges.
Context {E F : Type} {IE : Example E} {IF : Feature F E}.
Context {GO : GoMapOrder}.
Variable a : AdaBoostMH.t E F.

(** X20. When some stump of the ensemble has no feature, [Evaluate]
    panics with a nil dereference on its first pair, as soon as there is a
    test example and a known label. *)
Theorem Evaluate_nil_feature_panics (test : list E) (l : Label) :
  Exists (fun h => DecisionStump.Feature h = None) (AdaBoostMH.H a) ->
  test <> [] ->
  l ∈ DecisionStumper.labels (AdaBoostMH.Stumper a) ->
  AdaBoostMH.Evaluate a test = Fail NilDereference.
Proof.
  intros Hex Htest Hl. unfold AdaBoostMH.Evaluate.
  destruct (range_keys (DecisionStumper.labels (AdaBoostMH.Stumper a)))
    as [|k ks] eqn:Hks.
  { apply range_keys_elem in Hl. rewrite Hks in Hl. by apply elem_of_nil in Hl. }
  destruct test as [|e es]; [done|]. cbn [foldM].
  assert (Hp : AdaBoostMH.Predict a e k = Fail NilDereference)
    by by apply predict_loop.
  by rewrite Hp.
Qed.

(** X21. Without any known label there is no pair to count: [Evaluate]
    returns 0 for every test set and every ensemble, and calls no stump. *)
Theorem Evaluate_without_labels (test : list E) :
  DecisionStumper.labels (AdaBoostMH.Stumper a) = ∅ ->
  AdaBoostMH.Evaluate a test = Done 0.
Proof.
  intros Hlabels. unfold AdaBoostMH.Evaluate.
  rewrite Hlabels, range_keys_empty.
  generalize 0. induction test as [|e es IH]; intros n; cbn; [done|apply IH].
Qed.
End Evaluate_edges.

Lemma Evaluate_nil_feature_panics_demo :
  AdaBoostMH.Evaluate
    {| AdaBoostMH.Examples := [d3; d4];
       AdaBoostMH.Stumper := sharp_stumper;
       AdaBoostMH.D := demo_D;
       AdaBoostMH.H := [ {| DecisionStump.Feature := None;
                            DecisionStump.c := ∅;
                            DecisionStump.zt := 0%float |} ] |} [d3]
  = Fail NilDereference.
Proof.
  apply (Evaluate_nil_feature_panics _ [d3] "A"%string).
  - by constructor.
  - discriminate.
  - vm_compute. reflexivity.
Defined.

Lemma Evaluate_without_labels_demo :
  AdaBoostMH.Evaluate
    {| AdaBoostMH.Examples := [d2; d4];
       AdaBoostMH.Stumper :=
         {| DecisionStumper.labels := ∅;
            DecisionStumper.features := ["f"%string];
            DecisionStumper.examples := [d2; d4] |};
       AdaBoostMH.D := ∅;
       AdaBoostMH.H := [] |} [d1; d2]
  = Done 0.
Proof. apply Evaluate_without_labels. reflexivity. Defined.

(** ** When [zt] is zero *)

Section zt_zero.
Context {E F : Type} {IE : Example E} {IF : Feature F E}.
Context {EqF : EqDecision F} {CntF : Countable F}.
Context {GM : GoMath} {GO : GoMapOrder}.
Variables (σ : store) (ds : gmap Label loc) (stumper : DecisionStumper.t E F).

(** X22. When, for every scanned feature and known label, one of [W+]
    and [W-] is zero so that their product is 0 (no example satisfies the
    feature, or the feature separates the label perfectly), every score is 0
    and the stump's normalization constant [zt] is exactly 0: the divisor of
    the next reweighting. *)
Theorem NewStump_zt_zero :
  covered σ ds stumper = true ->
  (forall f l, f ∈ DecisionStumper.features stumper ->
               l ∈ DecisionStumper.labels stumper ->
               (Wplus σ ds stumper f l * Wminus σ ds stumper f l)%float = 0%float) ->
  exists h, DecisionStumper.NewStump σ stumper ds = Done h
            /\ DecisionStump.zt h = 0%float.
Proof.
  intros Hcov Hzero.
  destruct (NewStump_run σ ds stumper Hcov) as (w & fMin & _ & _ & ->).
  eexists. split; [reflexivity|]. cbn [DecisionStump.zt].
  assert (Hks : forall (ls : list Label) (g : Label -> float64),
             (forall l, l ∈ ls -> g l = 0%float) ->
             foldl (fun z l => (z + PrimFloat.sqrt (g l))%float) 0%float ls
             = 0%float).
  { induction ls as [|l ls IH]; intros g Hg; cbn [foldl]; [done|].
    rewrite (Hg l) by set_solver.
    change (0 + PrimFloat.sqrt 0)%float with 0%float.
    apply IH. intros ? ?. apply Hg. set_solver. }
  assert (HZ : forall f, f ∈ DecisionStumper.features stumper ->
                         Zf σ ds stumper f = 0%float).
  { intros f Hf. unfold Zf.
    apply (Hks _ (fun l => (Wplus σ ds stumper f l * Wminus σ ds stumper f l)%float)).
    intros l Hl. apply Hzero; [done|]. by apply range_keys_elem. }
  assert (Hfs : forall fs, (forall f, f ∈ fs -> Zf σ ds stumper f = 0%float) ->
                foldl (fun z f => (z + Zf σ ds stumper f)%float) 0%float fs
                = 0%float).
  { induction fs as [|f fs IH]; intros Hall; cbn [foldl]; [done|].
    rewrite (Hall f) by set_solver. change (0 + 0)%float with 0%float.
    apply IH. intros ? ?. apply Hall. set_solver. }
  by rewrite (Hfs _ HZ).
Qed.
End zt_zero.

Lemma NewStump_zt_zero_demo :
  exists h, DecisionStumper.NewStump (GM := linear_math) sharp_store sharp_stumper
              demo_D = Done h
            /\ DecisionStump.zt h = 0%float.
Proof.
  apply (NewStump_zt_zero (GM := linear_math) sharp_store demo_D sharp_stumper).
  - vm_compute. reflexivity.
  - intros f l Hf Hl.
    apply list_elem_of_singleton in Hf as ->.
    change (l ∈ ({["A"%string]} : gset Label)) in Hl.
    apply elem_of_singleton in Hl as ->.
    vm_compute. reflexivity.
Defined.
